(** * webthings-client: the request executor and the streaming channel

    A shallow embedding of [src/webthings-client.ts] (class
    [WebThingsClient]) and the properties of its specification.

    Layout:
    - [Js]: the fragment of the JavaScript runtime the class relies on
      (values, property access, [in], [for ... in], [Object.keys],
      truthiness, template-literal conversion);
    - [JSON]: a reference implementation of the host's [JSON.parse] and
      [JSON.stringify], used to run the model on concrete wire text;
    - the collaborators of the class ([node-fetch], [websocket]) as the
      class sees them, and the effects it has on them;
    - the class, method by method and listener by listener;
    - the properties, each first in general and then at a concrete input.

    Strings are [String.string], held as UTF-8 text; the per-unit
    operations ([for ... in] over a string, indexing, [length]) go by the
    UTF-16 code units of the text, as JavaScript does ([Js.units]). *)

From Stdlib Require Import ZArith NArith String Ascii List Bool Lia.
From Stdlib Require Import DecimalString DecimalZ.
From Stdlib Require Import PrimFloat FloatOps SpecFloat.
From Stdlib Require Import Permutation Sorted DecimalN DecimalPos.
Import ListNotations.

Set Warnings "-register-all".
Local Open Scope string_scope.
Local Open Scope list_scope.

(** String concatenation, kept apart from the [++] of lists. *)
Infix "^^" := String.append (right associativity, at level 60) : string_scope.

(* ================================================================== *)
(** * The JavaScript runtime fragment *)
(* ================================================================== *)

Module Js.

(** A JavaScript value as far as JSON can produce one, plus [undefined].
    Numbers are binary64.  An object keeps its own properties in creation
    order; [own_keys] gives the order in which the language enumerates
    them. *)
Inductive JsValue : Type :=
| JUndefined
| JNull
| JBool (b : bool)
| JNum (n : float)
| JStr (s : string)
| JArr (elements : list JsValue)
| JObj (props : list (string * JsValue)).

(** A thrown value: an error object with its [name] and [message], or any
    other value ([throw `...`] throws a string). *)
Inductive JsError : Type :=
| ErrorObject (name message : string)
| Thrown (v : JsValue).

Definition TypeError (message : string) : JsError := ErrorObject "TypeError" message.
Definition SyntaxError (message : string) : JsError := ErrorObject "SyntaxError" message.
Definition Error (message : string) : JsError := ErrorObject "Error" message.

(** The completion of a synchronous computation. *)
Inductive Completion (A : Type) : Type :=
| Normal (a : A)
| Throw (e : JsError).
Arguments Normal {A} a.
Arguments Throw {A} e.

(** The state in which a promise settles. *)
Inductive Promise (A : Type) : Type :=
| Fulfilled (a : A)
| Rejected (e : JsError).
Arguments Fulfilled {A} a.
Arguments Rejected {A} e.

(** ** Integers as decimal text *)

Definition string_of_Z (z : Z) : string := NilZero.string_of_int (Z.to_int z).
Definition string_of_N (n : N) : string := NilZero.string_of_uint (N.to_uint n).
Definition string_of_nat (n : nat) : string := string_of_N (N.of_nat n).

(** Reading decimal text back. *)
Definition Z_of_string (s : string) : option Z :=
  option_map Z.of_int (NilZero.int_of_string s).

(** The number [n] as a binary64 (exact below 2^53). *)
Definition float_of_Z (z : Z) : float := SF2Prim (binary_normalize prec emax z 0 false).

(** ** Property keys *)

(** An array index is a canonical numeric string ("0", "17", never "007")
    whose value is at most 2^32 - 2. *)
Definition array_index (k : string) : option N :=
  match NilZero.uint_of_string k with
  | Some u =>
      let n := N.of_uint u in
      if (string_of_N n =? k) && (n <? 4294967295)%N then Some n else None
  | None => None
  end.

Fixpoint insert_index (x : N * string) (l : list (N * string)) : list (N * string) :=
  match l with
  | [] => [x]
  | y :: r => if (fst x <=? fst y)%N then x :: l else y :: insert_index x r
  end.

Definition sort_indices (l : list (N * string)) : list (N * string) :=
  fold_right insert_index [] l.

Fixpoint index_keys (ks : list string) : list (N * string) :=
  match ks with
  | [] => []
  | k :: r =>
      match array_index k with
      | Some n => (n, k) :: index_keys r
      | None => index_keys r
      end
  end.

Definition is_index (k : string) : bool :=
  match array_index k with Some _ => true | None => false end.

(** OrdinaryOwnPropertyKeys: the array indices in ascending numeric order,
    then the other string keys in creation order. *)
Definition ordered_keys (ks : list string) : list string :=
  map snd (sort_indices (index_keys ks)) ++ filter (fun k => negb (is_index k)) ks.

Definition own_keys {A : Type} (props : list (string * A)) : list string :=
  ordered_keys (map fst props).

Definition indices (n : nat) : list string := map string_of_nat (seq 0 n).

(** ** Strings by code unit

    A JavaScript string is a sequence of UTF-16 code units.  [units s]
    cuts the UTF-8 text [s] into them, each given as its own text: a
    character of the basic plane is one unit, a character beyond it (four
    bytes) is two, a high and a low surrogate, written in three bytes each
    like any code point of their range.  A byte that starts no
    well-formed character is left as a unit of its own. *)
Definition byte (c : ascii) : Z := Z.of_N (N_of_ascii c).
Definition of_byte (z : Z) : ascii := ascii_of_N (Z.to_N z).

Definition continuation (c : ascii) : bool :=
  ((128 <=? byte c) && (byte c <? 192))%Z.

(** The three bytes of a code unit from 2048 on. *)
Definition three_bytes (u : Z) : string :=
  String (of_byte (224 + u / 4096))
    (String (of_byte (128 + (u / 64) mod 64)) (String (of_byte (128 + u mod 64)) "")).

Fixpoint units (s : string) : list string :=
  match s with
  | EmptyString => []
  | String b r =>
      let alone := String b "" :: units r in
      let n := byte b in
      if (n <? 192)%Z then alone
      else if (n <? 224)%Z then
        match r with
        | String c1 r1 =>
            if continuation c1 then String b (String c1 "") :: units r1 else alone
        | _ => alone
        end
      else if (n <? 240)%Z then
        match r with
        | String c1 (String c2 r2) =>
            if continuation c1 && continuation c2
            then String b (String c1 (String c2 "")) :: units r2
            else alone
        | _ => alone
        end
      else if (n <? 248)%Z then
        match r with
        | String c1 (String c2 (String c3 r3)) =>
            if continuation c1 && continuation c2 && continuation c3
            then
              let point :=
                ((((n - 240) * 64 + (byte c1 - 128)) * 64 + (byte c2 - 128)) * 64
                 + (byte c3 - 128))%Z in
              three_bytes (55296 + (point - 65536) / 1024)
                :: three_bytes (56320 + (point - 65536) mod 1024)
                :: units r3
            else alone
        | _ => alone
        end
      else alone
  end.

(** The own enumerable string keys of a value once converted to an object. *)
Definition enumerable_keys (v : JsValue) : list string :=
  match v with
  | JObj props => own_keys props
  | JArr l => indices (List.length l)
  | JStr s => indices (List.length (units s))
  | _ => []
  end.

(** [for (const key in v)]: nothing for [undefined] and [null]; the prototypes
    of plain objects, arrays and strings contribute no enumerable key. *)
Definition for_in_keys (v : JsValue) : list string := enumerable_keys v.

(** [Object.keys(v)] throws on [undefined] and [null]. *)
Definition Object_keys (v : JsValue) : Completion (list string) :=
  match v with
  | JUndefined | JNull => Throw (TypeError "Cannot convert undefined or null to object")
  | _ => Normal (enumerable_keys v)
  end.

Fixpoint lookup {A : Type} (k : string) (props : list (string * A)) : option A :=
  match props with
  | [] => None
  | (k', v) :: r => if k' =? k then Some v else lookup k r
  end.

Definition from_option (o : option JsValue) : JsValue :=
  match o with Some v => v | None => JUndefined end.

(** The members every object inherits from [Object.prototype]. *)
Definition Object_prototype_members : list string :=
  [ "constructor"; "__defineGetter__"; "__defineSetter__"; "hasOwnProperty";
    "__lookupGetter__"; "__lookupSetter__"; "isPrototypeOf"; "propertyIsEnumerable";
    "toString"; "valueOf"; "__proto__"; "toLocaleString" ].

(** [v.k] and [v[k]] for a name [k] that no prototype has: the own member
    of [v], [undefined] when there is none; reading a property of
    [undefined] or [null] throws.  The message handler reads [id], [data],
    [messageType] and [pair], which no prototype has, and enumerated keys,
    which are own.  A read under an arbitrary name is [read] below. *)
Definition get (v : JsValue) (k : string) : Completion JsValue :=
  match v with
  | JUndefined | JNull => Throw (TypeError "Cannot read properties of undefined or null")
  | JObj props => Normal (from_option (lookup k props))
  | JArr l =>
      match array_index k with
      | Some i => Normal (nth (N.to_nat i) l JUndefined)
      | None =>
          if k =? "length" then Normal (JNum (float_of_Z (Z.of_nat (List.length l))))
          else Normal JUndefined
      end
  | JStr s =>
      match array_index k with
      | Some i =>
          match nth_error (units s) (N.to_nat i) with
          | Some unit => Normal (JStr unit)
          | None => Normal JUndefined
          end
      | None =>
          if k =? "length"
          then Normal (JNum (float_of_Z (Z.of_nat (List.length (units s)))))
          else Normal JUndefined
      end
  | JBool _ | JNum _ => Normal JUndefined
  end.

(** [k in v]: throws unless [v] is an object.  As for [get], the members
    a prototype would add are left out: the class asks for [id] and
    [data]. *)
Definition has_property (k : string) (v : JsValue) : Completion bool :=
  match v with
  | JObj props => Normal (match lookup k props with Some _ => true | None => false end)
  | JArr l =>
      match array_index k with
      | Some i => Normal (N.to_nat i <? List.length l)%nat
      | None => Normal (k =? "length")
      end
  | _ => Throw (TypeError "Cannot use 'in' operator to search for a key in a primitive")
  end.

(** Whether [v] itself has the member [k]. *)
Definition has_own (v : JsValue) (k : string) : bool :=
  match v with
  | JObj props => match lookup k props with Some _ => true | None => false end
  | JArr l =>
      match array_index k with
      | Some i => (N.to_nat i <? List.length l)%nat
      | None => k =? "length"
      end
  | JStr s =>
      match array_index k with
      | Some i => (N.to_nat i <? List.length (units s))%nat
      | None => k =? "length"
      end
  | _ => false
  end.

(** What a read under an arbitrary name gives: a value, or what a
    prototype supplies under the name (a built-in function; under
    [__proto__] the prototype itself), which is no [JsValue]. *)
Inductive Member : Type :=
| plain (v : JsValue)
| builtin (k : string).

(** [v[k]] for any name [k]: the own member when [v] has one, else what
    the prototype chain has under the name, else [undefined].  Every chain
    ends in [Object.prototype], which is the whole chain of a plain
    object; [more v k] tells whether the prototype of an array, a string,
    a number or a boolean has a member [k] of its own. *)
Definition read (more : JsValue -> string -> bool) (v : JsValue) (k : string)
  : Completion Member :=
  match get v k with
  | Throw e => Throw e
  | Normal x =>
      if has_own v k then Normal (plain x)
      else
        let beyond := match v with JObj _ => false | _ => more v k end in
        if existsb (String.eqb k) Object_prototype_members || beyond
        then Normal (builtin k)
        else Normal (plain JUndefined)
  end.

(** [o[k] = v] on a plain object: an existing property keeps its place. *)
Fixpoint set_prop {A : Type} (k : string) (v : A) (props : list (string * A))
  : list (string * A) :=
  match props with
  | [] => [(k, v)]
  | (k', v') :: r => if k' =? k then (k, v) :: r else (k', v') :: set_prop k v r
  end.

(** ** Numbers

    [number_of_decimal neg m e10] is the binary64 nearest to
    [(-1)^neg * m * 10^e10] (ties to even), for [0 <= m]: the value of a
    decimal literal. *)
Definition signed_zero (neg : bool) : float := if neg then neg_zero else zero.
Definition signed_infinity (neg : bool) : float := if neg then neg_infinity else infinity.

Definition number_of_decimal (neg : bool) (m e10 : Z) : float :=
  if (m <=? 0)%Z then signed_zero neg
  else if (0 <=? e10)%Z then
    if (400 <? e10)%Z then signed_infinity neg
    else SF2Prim (binary_round_aux prec emax neg (m * 10 ^ e10) 0 loc_Exact)
  else if (Z.log2 m / 3 + 340 <? - e10)%Z then signed_zero neg
  else
    let d := (10 ^ (- e10))%Z in
    let s := Z.max 0 (Z.log2 d + 64 - Z.log2 m) in
    let q := (m * 2 ^ s / d)%Z in
    let r := ((m * 2 ^ s) mod d)%Z in
    let loc := if (r =? 0)%Z then loc_Exact else loc_Inexact (2 * r ?= d)%Z in
    SF2Prim (binary_round_aux prec emax neg q (- s) loc).

(** The exact value [n / d] of a positive finite number. *)
Definition ratio_of_float (f : float) : Z * Z :=
  match Prim2SF f with
  | S754_finite _ m e =>
      if (0 <=? e)%Z then (Zpos m * 2 ^ e, 1)%Z else (Zpos m, 2 ^ (- e))%Z
  | _ => (0, 1)%Z
  end.

(** The [n] with [10^(n-1) <= num/den < 10^n]. *)
Fixpoint scale_up (fuel : nat) (num den : Z) (j : Z) : Z :=
  match fuel with
  | O => j
  | S fuel' => if (den <=? num)%Z then j else scale_up fuel' (10 * num)%Z den (j + 1)%Z
  end.

Definition decimal_exponent (num den : Z) : Z :=
  if (den <=? num)%Z then Z.of_nat (String.length (string_of_Z (num / den)))
  else (1 - scale_up 400 (10 * num) den 1)%Z.

(** The shortest digit string [s] (of [k] digits) and the exponent [n] such
    that [s * 10^(n-k)] reads back as [f]; among several, the closest to [f]. *)
Fixpoint shortest_digits (fuel : nat) (f : float) (num den n k : Z) : Z * Z :=
  let e := (n - k)%Z in
  let tn := if (0 <=? e)%Z then num else (num * 10 ^ (- e))%Z in
  let td := if (0 <=? e)%Z then (den * 10 ^ e)%Z else den in
  let lo := (tn / td)%Z in
  let hi := (lo + 1)%Z in
  let r := (tn mod td)%Z in
  let lo_ok := PrimFloat.eqb (number_of_decimal false lo e) f in
  let hi_ok := PrimFloat.eqb (number_of_decimal false hi e) f in
  let lo_closer :=
    match (2 * r ?= td)%Z with
    | Lt => true
    | Eq => Z.even lo
    | Gt => false
    end in
  let pick (c : Z) := if (c =? 10 ^ k)%Z then (1, n + 1)%Z else (c, n) in
  match fuel with
  | O => pick lo
  | S fuel' =>
      if lo_ok && (negb hi_ok || lo_closer) then pick lo
      else if hi_ok then pick hi
      else shortest_digits fuel' f num den n (k + 1)%Z
  end.

Fixpoint zeros (n : nat) : string :=
  match n with
  | O => ""
  | S n' => String "0" (zeros n')
  end.

(** Number::toString in radix 10. *)
Definition positive_to_string (f : float) : string :=
  let '(num, den) := ratio_of_float f in
  let n0 := decimal_exponent num den in
  let '(s, n) := shortest_digits 17 f num den n0 1 in
  let ds := string_of_Z s in
  let k := Z.of_nat (String.length ds) in
  if ((k <=? n) && (n <=? 21))%Z then ds ^^ zeros (Z.to_nat (n - k))
  else if ((0 <? n) && (n <=? 21))%Z then
    substring 0 (Z.to_nat n) ds ^^ "." ^^ substring (Z.to_nat n) (Z.to_nat (k - n)) ds
  else if ((-6 <? n) && (n <=? 0))%Z then "0." ^^ zeros (Z.to_nat (- n)) ^^ ds
  else
    let e := (n - 1)%Z in
    let mantissa :=
      if (k =? 1)%Z then ds
      else substring 0 1 ds ^^ "." ^^ substring 1 (Z.to_nat (k - 1)) ds in
    mantissa ^^ "e" ^^ (if (e <? 0)%Z then "-" else "+") ^^ string_of_Z (Z.abs e).

Definition number_to_string (f : float) : string :=
  if PrimFloat.is_nan f then "NaN"
  else if PrimFloat.eqb f 0%float then "0"
  else if PrimFloat.is_infinity f then (if PrimFloat.ltb f 0%float then "-Infinity" else "Infinity")
  else if PrimFloat.ltb f 0%float then "-" ^^ positive_to_string (PrimFloat.abs f)
  else positive_to_string f.

Definition is_finite (f : float) : bool :=
  negb (PrimFloat.is_nan f || PrimFloat.is_infinity f).

(** ToString, as a template literal applies it.  Plain objects print as
    [[object Object]]; arrays join their elements with commas, [null] and
    [undefined] elements printing as nothing. *)
Fixpoint ToString (v : JsValue) : string :=
  match v with
  | JUndefined => "undefined"
  | JNull => "null"
  | JBool b => if b then "true" else "false"
  | JNum n => number_to_string n
  | JStr s => s
  | JArr l =>
      String.concat ","
        (map (fun x => match x with JUndefined | JNull => "" | _ => ToString x end) l)
  | JObj _ => "[object Object]"
  end.

(** ToBoolean. *)
Definition truthy (v : JsValue) : bool :=
  match v with
  | JUndefined | JNull => false
  | JBool b => b
  | JNum n => negb (PrimFloat.eqb n 0%float || PrimFloat.is_nan n)
  | JStr s => negb (s =? "")
  | JArr _ | JObj _ => true
  end.

(** [a || b]. *)
Definition or_else (a b : JsValue) : JsValue := if truthy a then a else b.

(** Truthiness of a [string | null] such as [headers.get(name)]. *)
Definition truthy_header (h : option string) : bool :=
  match h with
  | Some s => negb (s =? "")
  | None => false
  end.

End Js.

Import Js.

(* ================================================================== *)
(** * A reference [JSON.parse] and [JSON.stringify] *)
(* ================================================================== *)

(** The class calls the host's [JSON] object.  Its methods are parameters
    of the model of the class below; this module implements them after
    ECMA-404 and the [JSON] chapter of ECMA-262, so that the model runs on
    the text that travels on the wire. *)
Module JSON.

Definition code (c : ascii) : Z := Z.of_N (N_of_ascii c).
Definition char_of (z : Z) : ascii := ascii_of_N (Z.to_N z).
Definition quote : ascii := char_of 34.
Definition backslash : ascii := char_of 92.

Definition is_ws (c : ascii) : bool :=
  let n := code c in
  (n =? 32)%Z || (n =? 9)%Z || (n =? 10)%Z || (n =? 13)%Z.

Fixpoint skip_ws (s : string) : string :=
  match s with
  | String c r => if is_ws c then skip_ws r else s
  | EmptyString => s
  end.

Definition digit_of (c : ascii) : option Z :=
  let n := code c in
  if ((48 <=? n) && (n <=? 57))%Z then Some (n - 48)%Z else None.

Definition hex_of (c : ascii) : option Z :=
  let n := code c in
  if ((48 <=? n) && (n <=? 57))%Z then Some (n - 48)%Z
  else if ((65 <=? n) && (n <=? 70))%Z then Some (n - 55)%Z
  else if ((97 <=? n) && (n <=? 102))%Z then Some (n - 87)%Z
  else None.

(** ** Numbers *)

(** The digits at the head of [s]: their value after [acc], how many there
    are, and the rest of the text. *)
Fixpoint read_digits (acc : Z) (n : nat) (s : string) : Z * nat * string :=
  match s with
  | String c r =>
      match digit_of c with
      | Some d => read_digits (10 * acc + d)%Z (S n) r
      | None => (acc, n, s)
      end
  | EmptyString => (acc, n, s)
  end.

(** The integer part: a lone [0], or digits that do not start with [0]. *)
Definition read_int (s : string) : option (Z * string) :=
  match s with
  | String c r =>
      match digit_of c with
      | Some 0%Z => Some (0%Z, r)
      | Some _ => let '(m, _, r') := read_digits 0 0 s in Some (m, r')
      | None => None
      end
  | EmptyString => None
  end.

(** The fraction, appended to the mantissa [m]: the new mantissa and the
    number of fraction digits. *)
Definition read_frac (m : Z) (s : string) : option (Z * Z * string) :=
  match s with
  | String "." r =>
      let '(m', n, r') := read_digits m 0 r in
      match n with
      | O => None
      | _ => Some (m', Z.of_nat n, r')
      end
  | _ => Some (m, 0%Z, s)
  end.

Definition read_exp (s : string) : option (Z * string) :=
  let digits (neg : bool) (r : string) :=
    let '(e, n, r') := read_digits 0 0 r in
    match n with
    | O => None
    | _ => Some (if neg then (- e)%Z else e, r')
    end in
  match s with
  | String c r =>
      if ((code c =? 101) || (code c =? 69))%Z then
        match r with
        | String "+" r' => digits false r'
        | String "-" r' => digits true r'
        | _ => digits false r
        end
      else Some (0%Z, s)
  | EmptyString => Some (0%Z, s)
  end.

Definition parse_number (s : string) : option (float * string) :=
  let '(neg, s1) := match s with String "-" r => (true, r) | _ => (false, s) end in
  match read_int s1 with
  | Some (m, s2) =>
      match read_frac m s2 with
      | Some (m', nfrac, s3) =>
          match read_exp s3 with
          | Some (e, s4) => Some (number_of_decimal neg m' (e - nfrac), s4)
          | None => None
          end
      | None => None
      end
  | None => None
  end.

(** ** Strings *)

(** What a string literal denotes before it is encoded: a character of the
    text, or the code unit of a [\uXXXX] escape. *)
Inductive unit16 : Type :=
| Raw (c : ascii)
| Escaped (u : Z).

Definition simple_escape (c : ascii) : option ascii :=
  let n := code c in
  if (n =? 34)%Z then Some quote
  else if (n =? 92)%Z then Some backslash
  else if (n =? 47)%Z then Some "/"%char
  else if (n =? 98)%Z then Some (char_of 8)
  else if (n =? 102)%Z then Some (char_of 12)
  else if (n =? 110)%Z then Some (char_of 10)
  else if (n =? 114)%Z then Some (char_of 13)
  else if (n =? 116)%Z then Some (char_of 9)
  else None.

Definition hex4 (a b c d : ascii) : option Z :=
  match hex_of a, hex_of b, hex_of c, hex_of d with
  | Some x, Some y, Some z, Some w => Some (((x * 16 + y) * 16 + z) * 16 + w)%Z
  | _, _, _, _ => None
  end.

(** The body of a string literal, after its opening quote. *)
Fixpoint read_units (s : string) : option (list unit16 * string) :=
  match s with
  | EmptyString => None
  | String c r =>
      if (code c =? 34)%Z then Some ([], r)
      else if (code c =? 92)%Z then
        match r with
        | String e r1 =>
            if (code e =? 117)%Z then
              match r1 with
              | String h1 (String h2 (String h3 (String h4 r5))) =>
                  match hex4 h1 h2 h3 h4, read_units r5 with
                  | Some u, Some (us, rest) => Some (Escaped u :: us, rest)
                  | _, _ => None
                  end
              | _ => None
              end
            else
              match simple_escape e, read_units r1 with
              | Some x, Some (us, rest) => Some (Raw x :: us, rest)
              | _, _ => None
              end
        | EmptyString => None
        end
      else if (code c <? 32)%Z then None
      else
        match read_units r with
        | Some (us, rest) => Some (Raw c :: us, rest)
        | None => None
        end
  end.

(** UTF-8 of a code point (a lone surrogate is encoded like any other
    code point of its range). *)
Definition utf8 (p : Z) : string :=
  if (p <? 128)%Z then String (char_of p) ""
  else if (p <? 2048)%Z then
    String (char_of (192 + p / 64)) (String (char_of (128 + p mod 64)) "")
  else if (p <? 65536)%Z then
    String (char_of (224 + p / 4096))
      (String (char_of (128 + (p / 64) mod 64)) (String (char_of (128 + p mod 64)) ""))
  else
    String (char_of (240 + p / 262144))
      (String (char_of (128 + (p / 4096) mod 64))
         (String (char_of (128 + (p / 64) mod 64)) (String (char_of (128 + p mod 64)) ""))).

Definition is_high (u : Z) : bool := ((55296 <=? u) && (u <=? 56319))%Z.
Definition is_low (u : Z) : bool := ((56320 <=? u) && (u <=? 57343))%Z.

(** A high surrogate followed by a low one is one code point. *)
Fixpoint encode_units (us : list unit16) : string :=
  match us with
  | [] => ""
  | Raw c :: r => String c (encode_units r)
  | Escaped u :: r =>
      match r with
      | Escaped v :: r' =>
          if is_high u && is_low v
          then utf8 (65536 + (u - 55296) * 1024 + (v - 56320)) ^^ encode_units r'
          else utf8 u ^^ encode_units r
      | _ => utf8 u ^^ encode_units r
      end
  end.

Definition parse_string (s : string) : option (string * string) :=
  match read_units s with
  | Some (us, rest) => Some (encode_units us, rest)
  | None => None
  end.

(** ** Values *)

Definition expect (word : string) (v : JsValue) (s : string) : option (JsValue * string) :=
  if prefix word s
  then Some (v, substring (String.length word) (String.length s - String.length word) s)
  else None.

(** [parse_value] reads one value at the head of [s] (white space already
    skipped); [parse_elements] and [parse_members] read what follows the
    opening bracket or brace.  A duplicate member name overwrites the
    earlier value and keeps its place, as CreateDataProperty does.  The
    fuel bounds the nesting of the calls; [parse] supplies twice the
    length of the text. *)
Fixpoint parse_value (fuel : nat) (s : string) : option (JsValue * string) :=
  match fuel with
  | O => None
  | S fuel' =>
      match s with
      | EmptyString => None
      | String c r =>
          let n := code c in
          if (n =? 123)%Z then
            match skip_ws r with
            | String "}" r' => Some (JObj [], r')
            | r' => parse_members fuel' [] r'
            end
          else if (n =? 91)%Z then
            match skip_ws r with
            | String "]" r' => Some (JArr [], r')
            | r' => parse_elements fuel' [] r'
            end
          else if (n =? 34)%Z then
            match parse_string r with
            | Some (str, r') => Some (JStr str, r')
            | None => None
            end
          else if (n =? 116)%Z then expect "true" (JBool true) s
          else if (n =? 102)%Z then expect "false" (JBool false) s
          else if (n =? 110)%Z then expect "null" JNull s
          else
            match parse_number s with
            | Some (f, r') => Some (JNum f, r')
            | None => None
            end
      end
  end
with parse_elements (fuel : nat) (acc : list JsValue) (s : string)
  : option (JsValue * string) :=
  match fuel with
  | O => None
  | S fuel' =>
      match parse_value fuel' s with
      | Some (v, r) =>
          match skip_ws r with
          | String "," r' => parse_elements fuel' (acc ++ [v]) (skip_ws r')
          | String "]" r' => Some (JArr (acc ++ [v]), r')
          | _ => None
          end
      | None => None
      end
  end
with parse_members (fuel : nat) (acc : list (string * JsValue)) (s : string)
  : option (JsValue * string) :=
  match fuel with
  | O => None
  | S fuel' =>
      match s with
      | String c r =>
          if (code c =? 34)%Z then
            match parse_string r with
            | Some (k, r1) =>
                match skip_ws r1 with
                | String ":" r2 =>
                    match parse_value fuel' (skip_ws r2) with
                    | Some (v, r3) =>
                        match skip_ws r3 with
                        | String "," r4 => parse_members fuel' (set_prop k v acc) (skip_ws r4)
                        | String "}" r4 => Some (JObj (set_prop k v acc), r4)
                        | _ => None
                        end
                    | None => None
                    end
                | _ => None
                end
            | None => None
            end
          else None
      | EmptyString => None
      end
  end.

(** [JSON.parse(text)]: one value, white space around it, nothing else;
    anything else throws a [SyntaxError]. *)
Definition parse (text : string) : Completion JsValue :=
  match parse_value (2 * String.length text + 2) (skip_ws text) with
  | Some (v, rest) =>
      match skip_ws rest with
      | EmptyString => Normal v
      | _ => Throw (SyntaxError "Unexpected non-whitespace character after JSON")
      end
  | None => Throw (SyntaxError "Unexpected token or end of JSON input")
  end.

(** ** [JSON.stringify] *)

Definition hex_digit (z : Z) : ascii :=
  if (z <? 10)%Z then char_of (48 + z) else char_of (87 + z).

Definition unicode_escape (u : Z) : string :=
  String backslash
    (String "u"
       (String (hex_digit (u / 4096))
          (String (hex_digit ((u / 256) mod 16))
             (String (hex_digit ((u / 16) mod 16)) (String (hex_digit (u mod 16)) ""))))).

Definition escape2 (c : ascii) : string := String backslash (String c "").

(** QuoteJSONString without its quotes: the quote, the backslash and the
    control characters are escaped, and so is a lone surrogate (which the
    UTF-8 text holds in three bytes, 237 first). *)
Fixpoint quote_body (s : string) : string :=
  match s with
  | EmptyString => ""
  | String c r =>
      let n := code c in
      let plain := String c (quote_body r) in
      if (n =? 34)%Z then escape2 quote ^^ quote_body r
      else if (n =? 92)%Z then escape2 backslash ^^ quote_body r
      else if (n =? 8)%Z then escape2 "b" ^^ quote_body r
      else if (n =? 12)%Z then escape2 "f" ^^ quote_body r
      else if (n =? 10)%Z then escape2 "n" ^^ quote_body r
      else if (n =? 13)%Z then escape2 "r" ^^ quote_body r
      else if (n =? 9)%Z then escape2 "t" ^^ quote_body r
      else if (n <? 32)%Z then unicode_escape n ^^ quote_body r
      else if (n =? 237)%Z then
        match r with
        | String c2 (String c3 r3) =>
            if ((160 <=? code c2) && (code c2 <=? 191)
                && (128 <=? code c3) && (code c3 <=? 191))%Z
            then unicode_escape (53248 + (code c2 - 128) * 64 + (code c3 - 128))
                   ^^ quote_body r3
            else plain
        | _ => plain
        end
      else plain
  end.

Definition quote_string (s : string) : string :=
  String quote (quote_body s ^^ String quote "").

(** [JSON.stringify(v)] with no replacer and no indentation: [None] is the
    result [undefined].  A property whose value serializes to [undefined]
    is left out; in an array it is written [null]; a number that is not
    finite is written [null]. *)
Fixpoint stringify (v : JsValue) : option string :=
  match v with
  | JUndefined => None
  | JNull => Some "null"
  | JBool b => Some (if b then "true" else "false")
  | JNum n => Some (if is_finite n then number_to_string n else "null")
  | JStr s => Some (quote_string s)
  | JArr l =>
      let element (x : JsValue) :=
        match stringify x with Some t => t | None => "null" end in
      Some ("[" ^^ String.concat "," (map element l) ^^ "]")
  | JObj props =>
      let serialized :=
        (fix each (ps : list (string * JsValue)) : list (string * option string) :=
           match ps with
           | [] => []
           | (k, x) :: r => (k, stringify x) :: each r
           end) props in
      let member (k : string) : list string :=
        match lookup k serialized with
        | Some (Some t) => [quote_string k ^^ ":" ^^ t]
        | _ => []
        end in
      Some ("{" ^^ String.concat "," (flat_map member (own_keys props)) ^^ "}")
  end.

End JSON.

Import Js.

(* ================================================================== *)
(** * The collaborators of the class *)
(* ================================================================== *)

(** ** node-fetch *)

Record Agent : Type := { agent_rejectUnauthorized : bool }.

(** [RequestInit], with the fields the class sets. *)
Record RequestInit : Type := {
  agent : option Agent;
  method : option string;
  headers : option (list (string * string));
  body : option string;
  redirect : option string
}.

Definition empty_init : RequestInit :=
  {| agent := None; method := None; headers := None; body := None; redirect := None |}.

(** A response as the class reads it: [header] is [headers.get], [json]
    is the promise [response.json()] returns. *)
Record Response : Type := {
  status : Z;
  statusText : string;
  header : string -> option string;
  json : Promise JsValue
}.

(** The statuses node-fetch treats as redirects. *)
Definition is_redirect (status : Z) : bool :=
  ((status =? 301) || (status =? 302) || (status =? 303) || (status =? 307)
   || (status =? 308))%Z.

(** What [fetch] hands over under [redirect: 'manual'] for the response
    [wire] that came in: on a redirect that has a [Location] header,
    node-fetch sets the header to [resolved location], the URL the
    location resolves to against the address of the request (the location
    itself when it does not resolve); any other response is handed over
    as it is. *)
Definition manual_redirect (resolved : string -> string) (wire : Response) : Response :=
  if is_redirect (status wire)
  then
    match header wire "Location" with
    | Some location =>
        {| status := status wire;
           statusText := statusText wire;
           header := fun name =>
             if name =? "Location" then Some (resolved location) else header wire name;
           json := json wire |}
    | None => wire
    end
  else wire.

(** ** websocket *)

Record TlsOptions : Type := { tls_rejectUnauthorized : bool }.
Record IClientConfig : Type := { tlsOptions : option TlsOptions }.

(** A connection object of the library: [connected] is the flag the
    library keeps on it. *)
Record WebSocketConnection : Type := { socket : nat; connected : bool }.

(** A frame: a text frame has type [utf8] and carries [utf8Data]. *)
Record IMessage : Type := { type : string; utf8Data : option string }.

(** What [connect] on the library's client leads to: its [connect] event
    with the new connection, or [connectFailed]. *)
Inductive ConnectOutcome : Type :=
| connect_event (connection : WebSocketConnection)
| connectFailed (error : JsError).

(** ** What the class does to the outside

    [emit] stands for [this.emit(event, ...args)]: the event reaches the
    listeners the application registered.  They are not part of the
    class, and are taken to return normally and to leave the values they
    are handed as they are. *)

Inductive Effect : Type :=
| console_log (text : string)
| console_warn (args : list JsValue)
| fetch (url : string) (init : RequestInit)
| response_json
| emit (event : string) (args : list JsValue)
| emit_error (error : JsError)
| websocket_connect (config : IClientConfig) (url : string)
| connection_send (c : WebSocketConnection) (data : option string)
| connection_close (c : WebSocketConnection).

(** A computation that performs effects and completes: the effects
    performed so far are kept when it throws. *)
Definition Eff (A : Type) : Type := list Effect * Completion A.

Definition ret {A : Type} (a : A) : Eff A := ([], Normal a).

Definition bind {A B : Type} (m : Eff A) (k : A -> Eff B) : Eff B :=
  match m with
  | (es, Normal a) => let '(es', r) := k a in (es ++ es', r)
  | (es, Throw e) => (es, Throw e)
  end.

Definition perform (e : Effect) : Eff unit := ([e], Normal tt).
Definition lift {A : Type} (c : Completion A) : Eff A := ([], c).

Notation "x <- m ;; k" := (bind m (fun x => k))
  (at level 61, m at next level, right associativity).
Notation "m ;; k" := (bind m (fun _ => k))
  (at level 61, right associativity).

(** [for (const key of keys) body(key)]. *)
Fixpoint for_each (keys : list string) (body : string -> Eff unit) : Eff unit :=
  match keys with
  | [] => ret tt
  | key :: rest => body key ;; for_each rest body
  end.

(** [a === 'text']. *)
Definition is_string (v : JsValue) (text : string) : bool :=
  match v with
  | JStr s => s =? text
  | _ => false
  end.

(** [s || ''] for a [string | null]. *)
Definition or_empty (h : option string) : string :=
  match h with Some s => s | None => "" end.

(** A [string | null] inside a template literal. *)
Definition show_nullable (h : option string) : string :=
  match h with Some s => s | None => "null" end.

(** [s.indexOf(pattern) < 0]. *)
Definition lacks (pattern s : string) : bool :=
  match String.index 0 pattern s with
  | Some _ => false
  | None => true
  end.

(** [headers[name] = value] on the headers object. *)
Definition set_header (name value : string) (h : list (string * string)) :=
  set_prop name value h.

(** The [args] of [request]: only the truthiness of each flag is read, and
    the callers pass [true] or leave it out. *)
Record RequestArgs : Type := { nobody : bool; strbody : bool; expectnocontent : bool }.

Definition no_args : RequestArgs :=
  {| nobody := false; strbody := false; expectnocontent := false |}.

(* ================================================================== *)
(** * The class [WebThingsClient] *)
(* ================================================================== *)

Record WebThingsClient : Type := {
  address : string;
  port : Z;
  token : string;
  protocol : string;
  webSocketProtocol : string;
  fetchOptions : RequestInit;
  webSocketClientConfig : IClientConfig;
  connection : option WebSocketConnection
}.

(** [constructor(address, port, token, useHttps, skipValidation)]. *)
Definition new_WebThingsClient (address : string) (port : Z) (token : string)
  (useHttps skipValidation : bool) : WebThingsClient :=
  {| address := address;
     port := port;
     token := token;
     protocol := if useHttps then "https" else "http";
     webSocketProtocol := if useHttps then "wss" else "ws";
     fetchOptions :=
       if skipValidation
       then {| agent := Some {| agent_rejectUnauthorized := false |};
               method := None; headers := None; body := None; redirect := None |}
       else empty_init;
     webSocketClientConfig :=
       if skipValidation
       then {| tlsOptions := Some {| tls_rejectUnauthorized := false |} |}
       else {| tlsOptions := None |};
     connection := None |}.

(** [this.connection = connection]. *)
Definition set_connection (this : WebThingsClient) (k : WebSocketConnection)
  : WebThingsClient :=
  {| address := address this;
     port := port this;
     token := token this;
     protocol := protocol this;
     webSocketProtocol := webSocketProtocol this;
     fetchOptions := fetchOptions this;
     webSocketClientConfig := webSocketClientConfig this;
     connection := Some k |}.

(** [static async local(token)]; [probe] is how the probing [fetch] settles. *)
Definition local (token : string) (probe : Promise Response)
  : list Effect * Promise WebThingsClient :=
  let address := "localhost" in
  let port := 8080%Z in
  let probing :=
    [ console_log ("Probing port " ^^ string_of_Z port);
      fetch (String.concat "" ["http://"; address; ":"; string_of_Z port])
        {| agent := None; method := None; headers := None; body := None;
           redirect := Some "manual" |} ] in
  match probe with
  | Rejected e => (probing, Rejected e)
  | Fulfilled response =>
      let '(port, https, skipValidation, logged) :=
        if truthy_header (header response "Location")
        then (4443%Z, true, true,
              [ console_log
                  ("HTTPS seems to be active, using port " ^^ string_of_Z 4443%Z
                   ^^ " instead") ])
        else (port, false, false, []) in
      (probing ++ logged,
       Fulfilled (new_WebThingsClient address port token https skipValidation))
  end.

Section Class.

(** The host's [JSON.parse] and [JSON.stringify] ([None]: [undefined]). *)
Variable JSON_parse : string -> Completion JsValue.
Variable JSON_stringify : JsValue -> option string.

(** The entity views [./device] and [./event] are not part of this unit: a
    [Device] is built from a description and the client and answers
    [id()]; an [Event] carries its [description]. *)
Variable Device : Type.
Variable new_Device : JsValue -> WebThingsClient -> Device.
Variable Device_id : Device -> string.
Variable Event : Type.
Variable Event_description : Event -> JsValue.

(** The [params] that [request] hands to [fetch]: the client's fetch
    options, then [method] and [headers], then the body.  [headers] is one
    object, shared with [params], so the content type set after [params]
    is built is part of the request. *)
Definition request_init (this : WebThingsClient) (method_ : string) (body_ : JsValue)
  (args : RequestArgs) : RequestInit :=
  let headers0 :=
    [ ("Accept", "application/json");
      ("Authorization", "Bearer " ^^ token this) ] in
  if negb (nobody args)
  then {| agent := agent (fetchOptions this);
          redirect := redirect (fetchOptions this);
          method := Some method_;
          headers := Some (set_header "Content-Type" "application/json" headers0);
          body := if strbody args then Some (ToString body_) else JSON_stringify body_ |}
  else {| agent := agent (fetchOptions this);
          redirect := redirect (fetchOptions this);
          method := Some method_;
          headers := Some headers0;
          body := body (fetchOptions this) |}.

Definition request_url (this : WebThingsClient) (path : string) : string :=
  String.concat "" [protocol this; "://"; address this; ":"; string_of_Z (port this); path].

(** [private async request(method, path, body, args)]; [net] is how the
    [fetch] settles. *)
Definition request (this : WebThingsClient) (method_ path : string) (body_ : JsValue)
  (args : RequestArgs) (net : Promise Response) : list Effect * Promise JsValue :=
  let call := fetch (request_url this path) (request_init this method_ body_ args) in
  match net with
  | Rejected e => ([call], Rejected e)
  | Fulfilled response =>
      if ((status response <? 200) || (300 <=? status response))%Z
      then ([call],
            Rejected (Thrown (JStr (string_of_Z (status response) ^^ ": "
                                    ^^ statusText response))))
      else
        let contentType := or_empty (header response "Content-Type") in
        if lacks "application/json" contentType
        then
          if expectnocontent args
          then ([call], Fulfilled JNull)
          else ([call],
                Rejected (Thrown (JStr ("Content-Type is '"
                                        ^^ show_nullable (header response "Content-Type")
                                        ^^ "' but expected 'application/json'"))))
        else ([call; response_json], json response)
  end.

Definition get (this : WebThingsClient) (path : string) (net : Promise Response)
  : list Effect * Promise JsValue :=
  request this "GET" path JUndefined
    {| nobody := true; strbody := false; expectnocontent := false |} net.

Definition put (this : WebThingsClient) (path : string) (value : JsValue)
  (net : Promise Response) : list Effect * Promise JsValue :=
  request this "PUT" path value no_args net.

Definition post (this : WebThingsClient) (path : string) (value : JsValue)
  (net : Promise Response) : list Effect * Promise JsValue :=
  request this "POST" path value no_args net.

(** What a call of [delete] leaves behind: the promise it returns, and the
    promise of the request it started, which nothing awaits or returns. *)
Record Deleted : Type := {
  deleted_effects : list Effect;
  deleted_returned : Promise JsValue;
  deleted_floating : Promise JsValue
}.

Definition delete (this : WebThingsClient) (path : string) (net : Promise Response)
  : Deleted :=
  let started :=
    request this "DELETE" path (JStr "")
      {| nobody := false; strbody := true; expectnocontent := true |} net in
  {| deleted_effects := fst started;
     deleted_returned := Fulfilled JUndefined;
     deleted_floating := snd started |}.

(** [getDevices()]: [descriptions.map] exists on an array only. *)
Definition getDevices (this : WebThingsClient) (net : Promise Response)
  : list Effect * Promise (list Device) :=
  match get this "/things" net with
  | (es, Fulfilled (JArr descriptions)) =>
      (es, Fulfilled (map (fun description => new_Device description this) descriptions))
  | (es, Fulfilled JUndefined) | (es, Fulfilled JNull) =>
      (es, Rejected (TypeError "Cannot read properties of undefined or null"))
  | (es, Fulfilled _) => (es, Rejected (TypeError "descriptions.map is not a function"))
  | (es, Rejected e) => (es, Rejected e)
  end.

Definition getDevice (this : WebThingsClient) (id : string) (net : Promise Response)
  : list Effect * Promise Device :=
  match get this ("/things/" ^^ id) net with
  | (es, Fulfilled description) => (es, Fulfilled (new_Device description this))
  | (es, Rejected e) => (es, Rejected e)
  end.

(** ** The streaming channel *)

Definition socket_url (this : WebThingsClient) (port : Z) : string :=
  String.concat "" [webSocketProtocol this; "://"; address this; ":"; string_of_Z port;
                    "/things"].

(** [new WebSocketClient(config)] keeps the [tlsOptions] of the object it
    is given and deletes them from that object, which is
    [this.webSocketClientConfig] itself: after the call the client's
    configuration holds none. *)
Definition without_tlsOptions (this : WebThingsClient) : WebThingsClient :=
  {| address := address this;
     port := port this;
     token := token this;
     protocol := protocol this;
     webSocketProtocol := webSocketProtocol this;
     fetchOptions := fetchOptions this;
     webSocketClientConfig := {| tlsOptions := None |};
     connection := connection this |}.

(** [async connect(port = 8080)]: [None] is a call without argument.  The
    library is handed the configuration as it is at the call. *)
Definition connect (this : WebThingsClient) (port : option Z) (outcome : ConnectOutcome)
  : list Effect * WebThingsClient * Promise unit :=
  let port := match port with Some p => p | None => 8080%Z end in
  let socketUrl := socket_url this port in
  let call :=
    websocket_connect (webSocketClientConfig this)
      (String.concat "" [socketUrl; "?jwt="; token this]) in
  match outcome with
  | connect_event k => ([call], set_connection (without_tlsOptions this) k, Fulfilled tt)
  | connectFailed error => ([call], without_tlsOptions this, Rejected error)
  end.

(** The listener of the connection's [error] event.  [this.emit('error',
    error)] throws when the application registered no listener for
    [error]: the error itself, or a wrapper when what it is given is not
    an error object. *)
Definition on_error (listening : bool) (error : JsError) : Eff unit :=
  if listening then perform (emit_error error)
  else
    match error with
    | ErrorObject _ _ => lift (Throw error)
    | Thrown _ => lift (Throw (Error "Unhandled error."))
    end.

(** The listener of the connection's [close] event. *)
Definition on_close : Eff unit := perform (emit "close" []).

Definition warn_unknown (msg : JsValue) : Eff unit :=
  id <- lift (Js.get msg "id") ;;
  messageType <- lift (Js.get msg "messageType") ;;
  data <- lift (Js.get msg "data") ;;
  perform (console_warn [ JStr "Unknown message from socket"; or_else id (JStr "");
                          JStr ":"; messageType; JStr "("; data; JStr ")" ]).

(** [for (const key in msg.data) this.emit(event, msg.id, key, msg.data[key])]. *)
Definition emit_each (event : string) (msg : JsValue) : Eff unit :=
  data <- lift (Js.get msg "data") ;;
  for_each (for_in_keys data) (fun key =>
    id <- lift (Js.get msg "id") ;;
    data <- lift (Js.get msg "data") ;;
    value <- lift (Js.get data key) ;;
    perform (emit event [id; JStr key; value])).

(** [this.emit(event, msg.id, msg.data)]. *)
Definition emit_whole (event : string) (msg : JsValue) : Eff unit :=
  id <- lift (Js.get msg "id") ;;
  data <- lift (Js.get msg "data") ;;
  perform (emit event [id; data]).

(** The first [switch]: a frame with [id] and [data]. *)
Definition dispatch_device (msg : JsValue) : Eff unit :=
  messageType <- lift (Js.get msg "messageType") ;;
  if is_string messageType "propertyStatus" then emit_each "propertyChanged" msg
  else if is_string messageType "actionStatus" then emit_each "actionTriggered" msg
  else if is_string messageType "event" then emit_each "eventRaised" msg
  else if is_string messageType "connected" then emit_whole "connectStateChanged" msg
  else if is_string messageType "thingModified" then emit_whole "deviceModified" msg
  else if is_string messageType "thingAdded" then emit_whole "deviceAdded" msg
  else if is_string messageType "thingRemoved" then emit_whole "deviceRemoved" msg
  else warn_unknown msg.

(** The second [switch]: a frame with [data] and no [id]. *)
Definition dispatch_connection (msg : JsValue) : Eff unit :=
  messageType <- lift (Js.get msg "messageType") ;;
  if is_string messageType "actionStatus" then
    data <- lift (Js.get msg "data") ;;
    keys <- lift (Object_keys data) ;;
    if (List.length keys =? 1)%nat then
      data <- lift (Js.get msg "data") ;;
      keys <- lift (Object_keys data) ;;
      if nth 0 keys "" =? "pair" then
        data <- lift (Js.get msg "data") ;;
        pair <- lift (Js.get data "pair") ;;
        perform (emit "pair" [pair])
      else ret tt
    else ret tt
  else warn_unknown msg.

(** The listener of the connection's [message] event. *)
Definition on_message (message : IMessage) : Eff unit :=
  match utf8Data message with
  | Some text =>
      if (type message =? "utf8") && negb (text =? "") then
        msg <- lift (JSON_parse text) ;;
        id <- lift (Js.get msg "id") ;;
        data <- lift (Js.get msg "data") ;;
        perform (emit "message" [id; data]) ;;
        has_id <- lift (has_property "id" msg) ;;
        has_data <- (if has_id then lift (has_property "data" msg) else ret false) ;;
        if has_id && has_data then dispatch_device msg
        else
          has_data <- lift (has_property "data" msg) ;;
          if has_data then dispatch_connection msg else ret tt
      else ret tt
  | None => ret tt
  end.

(** The library closes a connection: it clears [connected] on the
    connection object, which [this.connection] still refers to, and fires
    [close]. *)
Definition mark_closed (this : WebThingsClient) : WebThingsClient :=
  match connection this with
  | Some k => set_connection this {| socket := socket k; connected := false |}
  | None => this
  end.

Definition closed (this : WebThingsClient) : list Effect * WebThingsClient :=
  (fst on_close, mark_closed this).

(** [async disconnect()]. *)
Definition disconnect (this : WebThingsClient) : list Effect * Promise unit :=
  match connection this with
  | None => ([], Rejected (Error "Socket not connected!"))
  | Some k => ([connection_close k], Fulfilled tt)
  end.




(** ** The channel state of the specification, read off the socket *)



(** The value [data[key]] reads, [undefined] where the read throws. *)
Definition property (data : JsValue) (key : string) : JsValue :=
  match Js.get data key with
  | Normal v => v
  | Throw _ => JUndefined
  end.

(** Following the words of the specification: a request that carries a
    body sets "a JSON or raw content type consistently with [bodyIsRaw]",
    the JSON type for a JSON body and another one for a raw body. *)
Definition content_type_consistent (bodyIsRaw : bool) (contentType : option string)
  : Prop :=
  match contentType with
  | Some t => lacks "application/json" t = bodyIsRaw
  | None => False
  end.

(** [props] has the member [k] with the value [v]: the first property of
    that name. *)
Definition has_member (props : list (string * JsValue)) (k : string) (v : JsValue) : Prop :=
  exists before after,
    props = before ++ (k, v) :: after /\ ~ In k (map fst before).

(** What reading the member [k] of an object with the properties [props]
    gives: the value of the member, [undefined] when there is none. *)
Definition reads (props : list (string * JsValue)) (k : string) (v : JsValue) : Prop :=
  has_member props k v \/ (~ In k (map fst props) /\ v = JUndefined).

(** A key that is an array index: the decimal numeral of a number up to
    2^32 - 2. *)
Definition canonical_index (k : string) : Prop :=
  exists n : N, (n < 4294967295)%N /\ k = string_of_N n.

(** The generic event. *)
Definition is_message (e : Effect) : bool :=
  match e with
  | emit event _ => event =? "message"
  | _ => false
  end.

(** A text frame with the given payload. *)
Definition text_frame (text : string) : IMessage :=
  {| type := "utf8"; utf8Data := Some text |}.

(** ** The property view ([Property], the caller of [get] and [put])

    [./link], [./helpers] and the [Device] class are not part of this
    unit: a link is opaque, [hrefFromLinksArray] picks the address of a
    relation out of the links, and a device hands out its [client]. *)
(** How the host resolves the [Location] of a redirect against the
    address of the probe. *)
Variable resolved_location : string -> string.

(** Whether the prototype of an array, a string, a number or a boolean
    ([Array.prototype], [String.prototype], ...) has a member of the given
    name. *)
Variable prototype_has : JsValue -> string -> bool.

Variable Link : Type.
Variable hrefFromLinksArray : list Link -> string -> string.
Variable Device_client : Device -> WebThingsClient.

(** [interface PropertyDescription]; [type_], [at_type] and [unit_] are
    its members [type], ['@type'] and [unit]. *)
Record PropertyDescription : Type := {
  title : string;
  type_ : string;
  at_type : list string;
  unit_ : string;
  description_text : string;
  minimum : float;
  maximum : float;
  readOnly : bool;
  multipleOf : float;
  links : list Link
}.

Record Property : Type := {
  name : string;
  description : PropertyDescription;
  device : Device
}.

(** [href()]. *)
Definition href (this : Property) : string :=
  hrefFromLinksArray (links (description this)) "property".

(** [async getValue()]: [wrapper[this.name]] of what the [get] answers. *)
Definition getValue (this : Property) (net : Promise Response)
  : list Effect * Promise Member :=
  match get (Device_client (device this)) (href this) net with
  | (es, Fulfilled wrapper) =>
      match Js.read prototype_has wrapper (name this) with
      | Normal value => (es, Fulfilled value)
      | Throw e => (es, Rejected e)
      end
  | (es, Rejected e) => (es, Rejected e)
  end.


(** ** What happens to a client over time

    The calls and events that can follow one another on a client, and
    the client each leaves behind: [connect] stores the connection of a
    successful attempt, [disconnect] calls [close] on the stored
    connection, in which the library clears its flag, the library's close
    event finds the flag cleared, and a frame assigns nothing. *)
Inductive ChannelOp : Type :=
| op_connect (port : option Z) (outcome : ConnectOutcome)
| op_closed
| op_disconnect
| op_message (message : IMessage).

Definition step (this : WebThingsClient) (op : ChannelOp) : WebThingsClient :=
  match op with
  | op_connect port outcome => snd (fst (connect this port outcome))
  | op_closed => snd (closed this)
  | op_disconnect => mark_closed this
  | op_message _ => this
  end.

Definition run (this : WebThingsClient) (ops : list ChannelOp) : WebThingsClient :=
  fold_left step ops this.

(** The socket of the last attempt to connect that succeeded, [start]
    when there is none. *)
Definition last_socket (start : option nat) (ops : list ChannelOp) : option nat :=
  fold_left (fun held op =>
               match op with
               | op_connect _ (connect_event k) => Some (socket k)
               | _ => held
               end) ops start.

(** An attempt to connect, successful or not. *)
Definition attempted (op : ChannelOp) : bool :=
  match op with
  | op_connect _ _ => true
  | _ => false
  end.

(** An attempt to connect that succeeded. *)
Definition succeeded (op : ChannelOp) : bool :=
  match op with
  | op_connect _ (connect_event _) => true
  | _ => false
  end.

(** The effects a listener of the socket may have: events and warnings. *)
Definition listener_effect (e : Effect) : bool :=
  match e with
  | emit _ _ | console_warn _ => true
  | _ => false
  end.

(** The message types whose data is spread over one event per key, and
    those passed on whole, each with its event. *)
Definition spread_types : list (string * string) :=
  [ ("propertyStatus", "propertyChanged");
    ("actionStatus", "actionTriggered");
    ("event", "eventRaised") ].

Definition whole_types : list (string * string) :=
  [ ("connected", "connectStateChanged");
    ("thingModified", "deviceModified");
    ("thingAdded", "deviceAdded");
    ("thingRemoved", "deviceRemoved") ].

(** A boolean, a number or a string. *)
Definition scalar (v : JsValue) : bool :=
  match v with
  | JBool _ | JNum _ | JStr _ => true
  | _ => false
  end.

(** The message types the first [switch] knows. *)
Definition known_type (v : JsValue) : bool :=
  existsb (fun entry => is_string v (fst entry)) (spread_types ++ whole_types).

(** A response is a success that announces JSON and whose body reads as
    [v]. *)
Definition answers_json (response : Response) (v : JsValue) : Prop :=
  (200 <= status response < 300)%Z
  /\ lacks "application/json" (or_empty (header response "Content-Type")) = false
  /\ json response = Fulfilled v.

(** ** Sample frames, responses and clients *)

(** A JSON string literal of the wire text. *)
Definition str (s : string) : string := JSON.quote_string s.

(** [{"id":"d1","data":{"a":1,"b":2},"messageType":"propertyStatus"}] *)
Definition frame_propertyStatus : string :=
  "{" ^^ str "id" ^^ ":" ^^ str "d1" ^^ "," ^^ str "data" ^^ ":{" ^^ str "a" ^^ ":1,"
  ^^ str "b" ^^ ":2}," ^^ str "messageType" ^^ ":" ^^ str "propertyStatus" ^^ "}".

(** [{"data":{"pair":"xyz"},"messageType":"actionStatus"}] *)
Definition frame_pair : string :=
  "{" ^^ str "data" ^^ ":{" ^^ str "pair" ^^ ":" ^^ str "xyz" ^^ "},"
  ^^ str "messageType" ^^ ":" ^^ str "actionStatus" ^^ "}".

(** [{"data":{"x":1},"messageType":"actionStatus"}] *)
Definition frame_action_without_pair : string :=
  "{" ^^ str "data" ^^ ":{" ^^ str "x" ^^ ":1}," ^^ str "messageType" ^^ ":"
  ^^ str "actionStatus" ^^ "}".

(** [{"messageType":"hello"}] *)
Definition frame_hello : string :=
  "{" ^^ str "messageType" ^^ ":" ^^ str "hello" ^^ "}".

(** A text that stops after its opening brace. *)
Definition frame_truncated : string := "{".

Definition not_found : Response :=
  {| status := 404;
     statusText := "Not Found";
     header := fun _ => None;
     json := Rejected (SyntaxError "Unexpected end of JSON input") |}.

(** A redirect as it comes in, with the given value of its [Location]
    header. *)
Definition found (location : string) : Response :=
  {| status := 302;
     statusText := "Found";
     header := fun name => if name =? "Location" then Some location else None;
     json := Rejected (SyntaxError "Unexpected end of JSON input") |}.

(** A table of prototype members for the examples: the long-standing
    methods of arrays, strings, numbers and booleans. *)
Definition standard_prototypes (v : JsValue) (k : string) : bool :=
  match v with
  | JArr _ =>
      existsb (String.eqb k)
        ["concat"; "every"; "filter"; "forEach"; "indexOf"; "join"; "lastIndexOf";
         "map"; "pop"; "push"; "reduce"; "reduceRight"; "reverse"; "shift"; "slice";
         "some"; "sort"; "splice"; "unshift"]
  | JStr _ =>
      existsb (String.eqb k)
        ["charAt"; "charCodeAt"; "concat"; "indexOf"; "lastIndexOf"; "localeCompare";
         "match"; "replace"; "search"; "slice"; "split"; "substring"; "toLowerCase";
         "toUpperCase"; "trim"]
  | JNum _ => existsb (String.eqb k) ["toExponential"; "toFixed"; "toPrecision"]
  | _ => false
  end.

(** [200 OK] that carries a [Location] header with an empty value. *)
Definition ok_with_empty_location : Response :=
  {| status := 200;
     statusText := "OK";
     header := fun name => if name =? "Location" then Some "" else None;
     json := Rejected (SyntaxError "Unexpected end of JSON input") |}.

(** Resolution against [http://localhost:8080]: an absolute URL is kept,
    anything else is taken as a path. *)
Definition resolve_at_the_probe (location : string) : string :=
  if prefix "http" location then location
  else if prefix "/" location then "http://localhost:8080" ^^ location
  else "http://localhost:8080/" ^^ location.

(** [{"id":"d1","data":{"on":true,"2":false,"1":null},"messageType":"propertyStatus"}] *)
Definition frame_mixed_keys : string :=
  "{" ^^ JSON.quote_string "id" ^^ ":" ^^ JSON.quote_string "d1" ^^ ","
  ^^ JSON.quote_string "data" ^^ ":{" ^^ JSON.quote_string "on" ^^ ":true,"
  ^^ JSON.quote_string "2" ^^ ":false," ^^ JSON.quote_string "1" ^^ ":null},"
  ^^ JSON.quote_string "messageType" ^^ ":" ^^ JSON.quote_string "propertyStatus" ^^ "}".

(** [{"id":"d1","data":"é😀","messageType":"propertyStatus"}] *)
Definition frame_text_data : string :=
  "{" ^^ JSON.quote_string "id" ^^ ":" ^^ JSON.quote_string "d1" ^^ ","
  ^^ JSON.quote_string "data" ^^ ":" ^^ JSON.quote_string "é😀" ^^ ","
  ^^ JSON.quote_string "messageType" ^^ ":" ^^ JSON.quote_string "propertyStatus" ^^ "}".

Definition plain_client : WebThingsClient :=
  new_WebThingsClient "localhost" 8080 "jwt" false false.


(** [200 OK] with a JSON body that reads as [v]. *)
Definition ok_json (v : JsValue) : Response :=
  {| status := 200;
     statusText := "OK";
     header := fun name =>
       if name =? "Content-Type" then Some "application/json; charset=utf-8" else None;
     json := Fulfilled v |}.

(** [204 No Content]: no content type, and no body to read. *)
Definition no_content : Response :=
  {| status := 204;
     statusText := "No Content";
     header := fun _ => None;
     json := Rejected (SyntaxError "Unexpected end of JSON input") |}.

(** [200 OK] with an HTML page. *)
Definition ok_html : Response :=
  {| status := 200;
     statusText := "OK";
     header := fun name => if name =? "Content-Type" then Some "text/html" else None;
     json := Rejected (SyntaxError "Unexpected token < in JSON") |}.

(** [{"id":"d1","data":{"2":true,"on":false,"1":null},"messageType":"event"}] *)
Definition frame_event : string :=
  "{" ^^ str "id" ^^ ":" ^^ str "d1" ^^ "," ^^ str "data" ^^ ":{" ^^ str "2" ^^ ":true,"
  ^^ str "on" ^^ ":false," ^^ str "1" ^^ ":null}," ^^ str "messageType" ^^ ":"
  ^^ str "event" ^^ "}".

(** [{"id":"d1","data":["a","b"],"messageType":"actionStatus"}] *)
Definition frame_action_list : string :=
  "{" ^^ str "id" ^^ ":" ^^ str "d1" ^^ "," ^^ str "data" ^^ ":[" ^^ str "a" ^^ ","
  ^^ str "b" ^^ "]," ^^ str "messageType" ^^ ":" ^^ str "actionStatus" ^^ "}".

(** [{"id":"d1","data":true,"messageType":"connected"}] *)
Definition frame_connected : string :=
  "{" ^^ str "id" ^^ ":" ^^ str "d1" ^^ "," ^^ str "data" ^^ ":true,"
  ^^ str "messageType" ^^ ":" ^^ str "connected" ^^ "}".

(** [{"id":0,"data":{},"messageType":"ping"}] *)
Definition frame_ping : string :=
  "{" ^^ str "id" ^^ ":0," ^^ str "data" ^^ ":{}," ^^ str "messageType" ^^ ":"
  ^^ str "ping" ^^ "}".

(** [{"id":"d1","messageType":"propertyStatus"}] *)
Definition frame_without_data : string :=
  "{" ^^ str "id" ^^ ":" ^^ str "d1" ^^ "," ^^ str "messageType" ^^ ":"
  ^^ str "propertyStatus" ^^ "}".

(* ================================================================== *)
(** * Properties *)
(* ================================================================== *)

(** [JSON.parse] rejects the empty text. *)
Hypothesis JSON_parse_empty : forall v, JSON_parse "" <> Normal v.

(** A location resolves to a URL, which is not empty (the empty location
    resolves to the address of the request), or is left as it is. *)
Hypothesis resolved_location_not_empty : forall location, resolved_location location <> "".

(** ** The effect monad *)

Lemma bind_lift_normal {A B : Type} (a : A) (k : A -> Eff B) :
  bind (lift (Normal a)) k = k a.
Proof. unfold bind, lift. destruct (k a) as [es r]. reflexivity. Qed.

Lemma bind_perform {B : Type} (e : Effect) (k : unit -> Eff B) :
  bind (perform e) k = (e :: fst (k tt), snd (k tt)).
Proof. unfold bind, perform. destruct (k tt) as [es r]. reflexivity. Qed.

Lemma for_each_performs (f : string -> Effect) (body : string -> Eff unit) :
  (forall key, body key = ([f key], Normal tt)) ->
  forall keys, for_each keys body = (map f keys, Normal tt).
Proof.
  intros Hbody keys. induction keys as [|key rest IH]; [reflexivity|].
  cbn [for_each map]. rewrite Hbody, IH. reflexivity.
Qed.

(** ** Reading properties *)

Lemma get_object (props : list (string * JsValue)) (k : string) :
  Js.get (JObj props) k = Normal (from_option (lookup k props)).
Proof. reflexivity. Qed.

(** Reading a property throws on [undefined] and [null] only, and those
    have no key to enumerate. *)
Lemma get_enumerable (data : JsValue) (key : string) :
  Js.get data key = Normal (property data key) \/ for_in_keys data = [].
Proof.
  unfold property.
  destruct data; cbn; try (right; reflexivity); left; try reflexivity.
  - destruct (array_index key); [destruct (nth_error _ _)|destruct (key =? "length")];
      reflexivity.
  - destruct (array_index key); [|destruct (key =? "length")]; reflexivity.
Qed.

Lemma emit_each_object (event : string) (props : list (string * JsValue)) :
  emit_each event (JObj props) =
    (map (fun key => emit event [ from_option (lookup "id" props); JStr key;
                                  property (from_option (lookup "data" props)) key ])
         (for_in_keys (from_option (lookup "data" props))),
     Normal tt).
Proof.
  unfold emit_each. rewrite get_object, bind_lift_normal.
  set (data := from_option (lookup "data" props)).
  destruct (get_enumerable data "") as [_|Hnone].
  - destruct (for_in_keys data) as [|k0 ks] eqn:Hkeys; [reflexivity|].
    apply for_each_performs. intros key.
    rewrite !get_object, !bind_lift_normal. fold data.
    destruct (get_enumerable data key) as [Hget|Hnone]; [|congruence].
    rewrite Hget, bind_lift_normal. reflexivity.
  - rewrite Hnone. reflexivity.
Qed.

(** A payload that parses is not empty. *)
Lemma parsed_not_empty (text : string) (v : JsValue) :
  JSON_parse text = Normal v -> (text =? "") = false.
Proof.
  intros Hparse. destruct (String.eqb_spec text "") as [->|]; [|reflexivity].
  exfalso. exact (JSON_parse_empty v Hparse).
Qed.

(** The listener on a text frame whose payload parses as an object: the
    [message] event, then the dispatch on the shape. *)
Lemma on_message_object (text : string) (props : list (string * JsValue)) :
  JSON_parse text = Normal (JObj props) ->
  on_message (text_frame text) =
    (perform (emit "message" [ from_option (lookup "id" props);
                               from_option (lookup "data" props) ]) ;;
     match lookup "id" props, lookup "data" props with
     | Some _, Some _ => dispatch_device (JObj props)
     | None, Some _ => dispatch_connection (JObj props)
     | _, None => ret tt
     end).
Proof.
  intros Hparse. unfold on_message, text_frame. cbn [utf8Data type].
  rewrite (parsed_not_empty text _ Hparse). cbn [String.eqb Ascii.eqb Bool.eqb andb negb].
  rewrite Hparse, bind_lift_normal, !get_object, !bind_lift_normal.
  cbn [has_property].
  destruct (lookup "id" props), (lookup "data" props);
    unfold bind, lift, ret, perform; cbn [andb];
    try destruct (dispatch_device _); try destruct (dispatch_connection _);
    reflexivity.
Qed.

(** ** The order of enumeration *)

Lemma index_keys_none (ks : list string) :
  (forall k, In k ks -> array_index k = None) -> index_keys ks = [].
Proof.
  induction ks as [|k r IH]; intros Hnone; [reflexivity|].
  cbn [index_keys]. rewrite (Hnone k (or_introl eq_refl)).
  apply IH. intros k' Hin. apply Hnone. right. exact Hin.
Qed.

Lemma filter_all {A : Type} (f : A -> bool) (l : list A) :
  (forall x, In x l -> f x = true) -> filter f l = l.
Proof.
  induction l as [|x r IH]; intros Hall; [reflexivity|].
  cbn [filter]. rewrite (Hall x (or_introl eq_refl)). f_equal.
  apply IH. intros y Hin. apply Hall. right. exact Hin.
Qed.

(** Keys of which none is an array index are enumerated in the order in
    which the object got them. *)
Lemma own_keys_creation_order {A : Type} (props : list (string * A)) :
  (forall k, In k (map fst props) -> array_index k = None) ->
  own_keys props = map fst props.
Proof.
  intros Hnone. unfold own_keys, ordered_keys.
  rewrite (index_keys_none _ Hnone). cbn [sort_indices fold_right map app].
  apply filter_all. intros k Hin. unfold is_index. rewrite (Hnone k Hin). reflexivity.
Qed.

Lemma lookup_head_fresh {A : Type} (k : string) (v : A) (props : list (string * A)) :
  ~ In k (map fst props) ->
  forall k' v', In (k', v') props -> lookup k' ((k, v) :: props) = lookup k' props.
Proof.
  intros Hfresh k' v' Hin. cbn [lookup].
  destruct (String.eqb_spec k k') as [->|]; [|reflexivity].
  exfalso. apply Hfresh. apply in_map_iff. exists (k', v'). split; [reflexivity|exact Hin].
Qed.

(** With distinct keys, reading each key gives the value stored with it. *)
Lemma map_lookup_distinct {B : Type} (f : string -> JsValue -> B)
  (props : list (string * JsValue)) :
  NoDup (map fst props) ->
  map (fun k => f k (property (JObj props) k)) (map fst props) =
  map (fun kv => f (fst kv) (snd kv)) props.
Proof.
  unfold property. intros Hnodup. rewrite map_map.
  assert (Hgen : forall l, (forall kv, In kv l -> lookup (fst kv) props = Some (snd kv)) ->
            map (fun x => f (fst x) match Js.get (JObj props) (fst x) with
                                    | Normal v => v | Throw _ => JUndefined end) l =
            map (fun kv => f (fst kv) (snd kv)) l).
  { induction l as [|kv r IH]; intros Hl; [reflexivity|].
    cbn [map]. rewrite get_object, (Hl kv (or_introl eq_refl)). cbn [from_option].
    f_equal. apply IH. intros kv' Hin. apply Hl. right. exact Hin. }
  apply Hgen. clear Hgen.
  induction props as [|[k v] r IH]; intros kv Hin; [destruct Hin|].
  cbn [map fst] in Hnodup. inversion Hnodup as [|? ? Hfresh Hrest]; subst.
  destruct Hin as [<-|Hin].
  - cbn [lookup fst snd]. rewrite String.eqb_refl. reflexivity.
  - destruct kv as [k' v']. cbn [fst snd].
    rewrite (lookup_head_fresh k v r Hfresh k' v' Hin).
    apply (IH Hrest (k', v') Hin).
Qed.

(** ** Keys, members and the order of enumeration: further facts *)

Lemma lookup_not_in {A : Type} (k : string) (props : list (string * A)) :
  ~ In k (map fst props) -> lookup k props = None.
Proof.
  induction props as [|[k0 v0] r IH]; cbn [map fst In lookup]; [reflexivity|].
  intros Hnot. destruct (String.eqb_spec k0 k) as [->|].
  - exfalso. apply Hnot. left. reflexivity.
  - apply IH. intros Hin. apply Hnot. right. exact Hin.
Qed.

Lemma lookup_has_member (props : list (string * JsValue)) (k : string) (v : JsValue) :
  has_member props k v -> lookup k props = Some v.
Proof.
  intros (before & after & -> & Hfirst).
  induction before as [|[k0 v0] r IH]; cbn [app lookup].
  - rewrite String.eqb_refl. reflexivity.
  - destruct (String.eqb_spec k0 k) as [->|].
    + exfalso. apply Hfirst. left. reflexivity.
    + apply IH. intros Hin. apply Hfirst. right. exact Hin.
Qed.

Lemma lookup_reads (props : list (string * JsValue)) (k : string) (v : JsValue) :
  reads props k v -> from_option (lookup k props) = v.
Proof.
  intros [Hmember|[Habsent ->]].
  - rewrite (lookup_has_member _ _ _ Hmember). reflexivity.
  - rewrite (lookup_not_in _ _ Habsent). reflexivity.
Qed.

Lemma in_insert_index (x y : N * string) (l : list (N * string)) :
  In x (insert_index y l) <-> x = y \/ In x l.
Proof.
  induction l as [|z r IH]; cbn [insert_index In].
  - intuition congruence.
  - destruct (fst y <=? fst z)%N; cbn [In]; [intuition congruence|].
    rewrite IH. intuition congruence.
Qed.

Lemma in_sort_indices (x : N * string) (l : list (N * string)) :
  In x (sort_indices l) <-> In x l.
Proof.
  unfold sort_indices. induction l as [|y r IH]; cbn [fold_right In]; [reflexivity|].
  rewrite in_insert_index, IH. intuition congruence.
Qed.

Lemma in_index_keys (n : N) (k : string) (ks : list string) :
  In (n, k) (index_keys ks) <-> In k ks /\ array_index k = Some n.
Proof.
  induction ks as [|k0 r IH]; cbn [index_keys In]; [tauto|].
  destruct (array_index k0) as [n0|] eqn:Hk0; cbn [In]; rewrite IH; split.
  - intros [Heq|[Hin Hidx]]; [|tauto]. inversion Heq; subst. tauto.
  - intros [[->|Hin] Hidx]; [left; congruence|tauto].
  - tauto.
  - intros [[->|Hin] Hidx]; [congruence|tauto].
Qed.


Lemma insert_index_permutation (x : N * string) (l : list (N * string)) :
  Permutation (insert_index x l) (x :: l).
Proof.
  induction l as [|y r IH]; cbn [insert_index]; [apply Permutation_refl|].
  destruct (fst x <=? fst y)%N; [apply Permutation_refl|].
  apply Permutation_trans with (y :: x :: r); [|apply perm_swap].
  apply perm_skip. exact IH.
Qed.

Lemma sort_indices_permutation (l : list (N * string)) : Permutation (sort_indices l) l.
Proof.
  unfold sort_indices. induction l as [|x r IH]; cbn [fold_right]; [apply perm_nil|].
  apply Permutation_trans with (x :: fold_right insert_index [] r).
  - apply insert_index_permutation.
  - apply perm_skip. exact IH.
Qed.

Lemma index_keys_filter (ks : list string) :
  map snd (index_keys ks) = filter is_index ks.
Proof.
  induction ks as [|k r IH]; [reflexivity|].
  cbn [index_keys filter]. unfold is_index at 1.
  destruct (array_index k); cbn [map snd]; rewrite IH; reflexivity.
Qed.

Lemma filter_split_permutation {A : Type} (f : A -> bool) (l : list A) :
  Permutation (filter f l ++ filter (fun x => negb (f x)) l) l.
Proof.
  induction l as [|x r IH]; [apply perm_nil|].
  cbn [filter]. destruct (f x); cbn [negb app].
  - apply perm_skip. exact IH.
  - apply Permutation_sym, Permutation_cons_app, Permutation_sym. exact IH.
Qed.

(** The enumeration is a rearrangement of the keys. *)
Lemma ordered_keys_permutation (ks : list string) : Permutation (ordered_keys ks) ks.
Proof.
  unfold ordered_keys.
  apply Permutation_trans with (filter is_index ks ++ filter (fun k => negb (is_index k)) ks).
  - apply Permutation_app_tail. rewrite <- index_keys_filter.
    apply Permutation_map, sort_indices_permutation.
  - apply filter_split_permutation.
Qed.

Lemma array_index_of_nat (i : nat) :
  (N.of_nat i < 4294967295)%N -> array_index (string_of_nat i) = Some (N.of_nat i).
Proof.
  intros Hbound. unfold array_index, string_of_nat, string_of_N.
  assert (Hnonnil : N.to_uint (N.of_nat i) <> Decimal.Nil).
  { destruct (N.of_nat i) as [|p]; [discriminate|].
    apply DecimalPos.Unsigned.to_uint_nonnil. }
  rewrite (NilZero.usu _ Hnonnil), DecimalN.Unsigned.of_to, String.eqb_refl.
  apply N.ltb_lt in Hbound. rewrite Hbound. reflexivity.
Qed.

(** What the second [switch] does on an [actionStatus] frame, by the keys
    of its data. *)
Lemma dispatch_connection_actionStatus (props : list (string * JsValue)) (data : JsValue) :
  lookup "data" props = Some data ->
  is_string (from_option (lookup "messageType" props)) "actionStatus" = true ->
  dispatch_connection (JObj props) =
    match Object_keys data with
    | Normal keys =>
        if (List.length keys =? 1)%nat && (nth 0 keys "" =? "pair")
        then ([emit "pair" [property data "pair"]], Normal tt)
        else ([], Normal tt)
    | Throw e => ([], Throw e)
    end.
Proof.
  intros Hdata Htype. unfold dispatch_connection.
  rewrite get_object, bind_lift_normal, Htype.
  rewrite get_object, Hdata, bind_lift_normal. cbn [from_option].
  destruct (Object_keys data) as [keys|e] eqn:Hkeys; [|reflexivity].
  rewrite bind_lift_normal.
  destruct (List.length keys =? 1)%nat; [|reflexivity].
  rewrite bind_lift_normal, Hkeys, bind_lift_normal. cbn [andb].
  destruct (nth 0 keys "" =? "pair"); [|reflexivity].
  rewrite bind_lift_normal.
  destruct (get_enumerable data "pair") as [Hget|Hnone].
  - rewrite Hget, bind_lift_normal. reflexivity.
  - destruct data; cbn in Hkeys; try discriminate; reflexivity.
Qed.

Lemma warn_unknown_object (props : list (string * JsValue)) :
  warn_unknown (JObj props) =
    ([ console_warn [ JStr "Unknown message from socket";
                      or_else (from_option (lookup "id" props)) (JStr "");
                      JStr ":"; from_option (lookup "messageType" props);
                      JStr "("; from_option (lookup "data" props); JStr ")" ] ],
     Normal tt).
Proof. unfold warn_unknown. rewrite !get_object, !bind_lift_normal. reflexivity. Qed.

Lemma emit_whole_object (event : string) (props : list (string * JsValue)) :
  emit_whole event (JObj props) =
    ([emit event [from_option (lookup "id" props); from_option (lookup "data" props)]],
     Normal tt).
Proof. unfold emit_whole. rewrite !get_object, !bind_lift_normal. reflexivity. Qed.

Lemma array_index_of_N (n : N) :
  (n < 4294967295)%N -> array_index (string_of_N n) = Some n.
Proof.
  intros Hbound. unfold array_index, string_of_N.
  assert (Hnonnil : N.to_uint n <> Decimal.Nil).
  { destruct n as [|p]; [discriminate|].
    apply DecimalPos.Unsigned.to_uint_nonnil. }
  rewrite (NilZero.usu _ Hnonnil), DecimalN.Unsigned.of_to, String.eqb_refl.
  apply N.ltb_lt in Hbound. rewrite Hbound. reflexivity.
Qed.

Lemma array_index_sound (k : string) (n : N) :
  array_index k = Some n -> k = string_of_N n /\ (n < 4294967295)%N.
Proof.
  unfold array_index. destruct (NilZero.uint_of_string k) as [u|]; [|discriminate].
  destruct ((string_of_N (N.of_uint u) =? k) && (N.of_uint u <? 4294967295)%N) eqn:Hcheck;
    [|discriminate].
  intros Heq. injection Heq as <-.
  apply andb_true_iff in Hcheck. destruct Hcheck as [Htext Hbound].
  apply String.eqb_eq in Htext. apply N.ltb_lt in Hbound. split; [congruence|exact Hbound].
Qed.

(** The model's test for an array index is the notion of the language. *)
Lemma is_index_canonical (k : string) : is_index k = true <-> canonical_index k.
Proof.
  unfold is_index, canonical_index. split.
  - destruct (array_index k) as [n|] eqn:Hidx; [|discriminate].
    intros _. apply array_index_sound in Hidx. exists n. tauto.
  - intros [n [Hbound ->]]. rewrite (array_index_of_N n Hbound). reflexivity.
Qed.

Lemma insert_index_sorted (x : N * string) (l : list (N * string)) :
  Sorted N.le (map fst l) -> Sorted N.le (map fst (insert_index x l)).
Proof.
  induction l as [|y r IH]; intros Hsorted; cbn [insert_index map].
  - repeat constructor.
  - destruct (fst x <=? fst y)%N eqn:Hle.
    + cbn [map]. constructor; [exact Hsorted|]. constructor. apply N.leb_le. exact Hle.
    + apply N.leb_gt in Hle. cbn [map] in *.
      inversion Hsorted as [|? ? Hrest Hhead]; subst.
      constructor; [apply IH; exact Hrest|].
      destruct r as [|z r']; cbn [insert_index map].
      * constructor. apply N.lt_le_incl. exact Hle.
      * destruct (fst x <=? fst z)%N; cbn [map]; constructor.
        -- apply N.lt_le_incl. exact Hle.
        -- inversion Hhead; subst. assumption.
Qed.

Lemma sort_indices_sorted (l : list (N * string)) :
  Sorted N.le (map fst (sort_indices l)).
Proof.
  unfold sort_indices. induction l as [|x r IH]; cbn [fold_right]; [constructor|].
  apply insert_index_sorted. exact IH.
Qed.

(** An ascending list without repetition ascends strictly. *)
Lemma sorted_distinct (l : list N) : Sorted N.le l -> NoDup l -> Sorted N.lt l.
Proof.
  intros Hsorted Hnodup. apply StronglySorted_Sorted.
  apply Sorted_StronglySorted in Hsorted; [|intros a b c; apply N.le_trans].
  induction Hsorted as [|a r Hrest IH Hall]; [constructor|].
  inversion Hnodup as [|? ? Hfresh Hnodup']; subst.
  constructor; [apply IH; exact Hnodup'|].
  rewrite Forall_forall in *. intros b Hin.
  destruct (N.eq_dec a b) as [->|Hne]; [contradiction|].
  specialize (Hall b Hin). apply N.le_neq. split; assumption.
Qed.

(** With distinct keys, a property is read back under its key. *)
Lemma lookup_in_distinct {A : Type} (props : list (string * A)) (k : string) (v : A) :
  NoDup (map fst props) -> In (k, v) props -> lookup k props = Some v.
Proof.
  induction props as [|[k0 v0] r IH]; intros Hnodup Hin; [destruct Hin|].
  cbn [map fst] in Hnodup. inversion Hnodup as [|? ? Hfresh Hrest]; subst.
  destruct Hin as [Heq|Hin].
  - injection Heq as -> ->. cbn [lookup]. rewrite String.eqb_refl. reflexivity.
  - cbn [lookup]. destruct (String.eqb_spec k0 k) as [->|].
    + exfalso. apply Hfresh. apply in_map_iff. exists (k, v). split; [reflexivity|exact Hin].
    + apply IH; assumption.
Qed.

Lemma filter_keys {A : Type} (g : string -> string * A) (p : string -> bool)
  (l : list (string * A)) :
  (forall kv, In kv l -> g (fst kv) = kv) ->
  map g (filter p (map fst l)) = filter (fun kv => p (fst kv)) l.
Proof.
  induction l as [|kv r IH]; intros Hg; [reflexivity|].
  assert (Hrest : map g (filter p (map fst r)) = filter (fun kv => p (fst kv)) r)
    by (apply IH; intros kv' Hin; apply Hg; right; exact Hin).
  cbn [map filter]. destruct (p (fst kv)); [|exact Hrest].
  cbn [map]. rewrite (Hg kv (or_introl eq_refl)), Hrest. reflexivity.
Qed.

(** ** The inbound dispatch: only [message] is called [message] *)

Lemma forallb_map_all {A : Type} (P : Effect -> bool) (f : A -> Effect) (l : list A) :
  (forall x, P (f x) = true) -> forallb P (map f l) = true.
Proof.
  intros Hf. induction l as [|x r IH]; [reflexivity|].
  cbn [map forallb]. rewrite Hf, IH. reflexivity.
Qed.

Lemma dispatch_device_specific (props : list (string * JsValue)) :
  forallb (fun e => negb (is_message e)) (fst (dispatch_device (JObj props))) = true.
Proof.
  unfold dispatch_device. rewrite get_object, bind_lift_normal.
  repeat match goal with
         | |- context [if is_string ?v ?t then _ else _] => destruct (is_string v t)
         end;
    rewrite ?emit_each_object, ?emit_whole_object, ?warn_unknown_object; cbn [fst];
    try reflexivity; apply forallb_map_all; reflexivity.
Qed.

Lemma dispatch_connection_specific (props : list (string * JsValue)) (data : JsValue) :
  lookup "data" props = Some data ->
  forallb (fun e => negb (is_message e)) (fst (dispatch_connection (JObj props))) = true.
Proof.
  intros Hdata.
  destruct (is_string (from_option (lookup "messageType" props)) "actionStatus") eqn:Htype.
  - rewrite (dispatch_connection_actionStatus props data Hdata Htype).
    destruct (Object_keys data) as [keys|e]; [|reflexivity].
    destruct (_ && _); reflexivity.
  - unfold dispatch_connection. rewrite get_object, bind_lift_normal, Htype.
    rewrite warn_unknown_object. reflexivity.
Qed.

(** ** The inbound dispatch *)

(** C1, as the code has it: a text frame that carries [id] and [data]
    with message type [propertyStatus] raises [message(id, data)] first and
    then one [propertyChanged(id, key, data[key])] per key of [data], in
    the order in which [for ... in] enumerates the keys of the received
    data.  For data that is an object with distinct keys that order is:
    the keys that are array indices first, by ascending number, then the
    other keys in the order in which they were received, each with its own
    value; it is the order received when no key is an array index. *)
Theorem propertyStatus_message_then_each_key
  (text : string) (props : list (string * JsValue)) (id data : JsValue) :
  JSON_parse text = Normal (JObj props) ->
  lookup "id" props = Some id ->
  lookup "data" props = Some data ->
  lookup "messageType" props = Some (JStr "propertyStatus") ->
  on_message (text_frame text) =
    (emit "message" [id; data]
       :: map (fun key => emit "propertyChanged" [id; JStr key; property data key])
            (for_in_keys data),
     Normal tt)
  /\ (forall changed,
        data = JObj changed ->
        NoDup (map fst changed) ->
        exists (indexed named : list (string * JsValue)) (numbers : list N),
          on_message (text_frame text) =
            (emit "message" [id; data]
               :: map (fun kv => emit "propertyChanged" [id; JStr (fst kv); snd kv])
                    (indexed ++ named),
             Normal tt)
          /\ Permutation (indexed ++ named) changed
          /\ map fst indexed = map string_of_N numbers
          /\ Sorted N.lt numbers
          /\ Forall (fun n => (n < 4294967295)%N) numbers
          /\ (exists keep, named = filter keep changed)
          /\ (forall kv, In kv named -> ~ canonical_index (fst kv)))
  /\ (forall changed,
        data = JObj changed ->
        NoDup (map fst changed) ->
        (forall k, In k (map fst changed) -> ~ canonical_index k) ->
        on_message (text_frame text) =
          (emit "message" [id; data]
             :: map (fun kv => emit "propertyChanged" [id; JStr (fst kv); snd kv]) changed,
           Normal tt)).
Proof.
  intros Hparse Hid Hdata Htype.
  assert (Hrun : on_message (text_frame text) =
            (emit "message" [id; data]
               :: map (fun key => emit "propertyChanged" [id; JStr key; property data key])
                    (for_in_keys data),
             Normal tt)).
  { rewrite (on_message_object text props Hparse), Hid, Hdata. cbn [from_option].
    rewrite bind_perform. unfold dispatch_device.
    rewrite get_object, Htype, bind_lift_normal. cbn [from_option is_string].
    cbn [String.eqb Ascii.eqb Bool.eqb]. rewrite emit_each_object, Hid, Hdata.
    reflexivity. }
  split; [exact Hrun|]. split.
  - intros changed -> Hnodup.
    set (ks := map fst changed).
    set (sorted := sort_indices (index_keys ks)).
    set (g := fun k : string => (k, property (JObj changed) k)).
    assert (Hvalue : forall kv, In kv changed -> g (fst kv) = kv).
    { intros [k v] Hin. unfold g, property. cbn [fst].
      rewrite get_object, (lookup_in_distinct changed k v Hnodup Hin). reflexivity. }
    assert (Hsound : forall nk, In nk sorted ->
               snd nk = string_of_N (fst nk) /\ (fst nk < 4294967295)%N).
    { intros [n k] Hin. apply in_sort_indices, in_index_keys in Hin.
      destruct Hin as [_ Hidx]. exact (array_index_sound k n Hidx). }
    exists (map g (map snd sorted)),
           (filter (fun kv => negb (is_index (fst kv))) changed),
           (map fst sorted).
    assert (Hshape : map g (map snd sorted)
                       ++ filter (fun kv => negb (is_index (fst kv))) changed
                     = map g (ordered_keys ks)).
    { unfold ordered_keys. rewrite map_app. f_equal. symmetry.
      exact (filter_keys g (fun k => negb (is_index k)) changed Hvalue). }
    assert (Hperm : Permutation
                      (map g (map snd sorted)
                         ++ filter (fun kv => negb (is_index (fst kv))) changed)
                      changed).
    { rewrite Hshape.
      apply Permutation_trans with (map g ks);
        [apply Permutation_map, ordered_keys_permutation|].
      unfold ks. rewrite map_map.
      rewrite (map_ext_in (fun kv => g (fst kv)) (fun kv => kv) changed Hvalue), map_id.
      apply Permutation_refl. }
    assert (Hnumerals : map fst (map g (map snd sorted))
                        = map string_of_N (map fst sorted)).
    { rewrite !map_map. apply map_ext_in. intros nk Hin. cbn [g fst].
      exact (proj1 (Hsound nk Hin)). }
    split; [|split; [exact Hperm|split; [exact Hnumerals|split; [|split; [|split]]]]].
    + rewrite Hrun, Hshape, map_map. reflexivity.
    + apply sorted_distinct; [apply sort_indices_sorted|].
      apply (NoDup_map_inv string_of_N). rewrite <- Hnumerals.
      apply (Permutation_map fst), Permutation_sym in Hperm.
      apply (Permutation_NoDup Hperm) in Hnodup. rewrite map_app in Hnodup.
      exact (NoDup_app_remove_r _ _ Hnodup).
    + apply Forall_forall. intros n Hin. apply in_map_iff in Hin.
      destruct Hin as [nk [<- Hin]]. exact (proj2 (Hsound nk Hin)).
    + eexists. reflexivity.
    + intros kv Hin Hcanonical. apply filter_In in Hin. destruct Hin as [_ Hplain].
      apply is_index_canonical in Hcanonical. rewrite Hcanonical in Hplain.
      discriminate Hplain.
  - intros changed -> Hnodup Hplain. rewrite Hrun. do 2 f_equal.
    cbn [for_in_keys enumerable_keys].
    rewrite (own_keys_creation_order changed).
    + exact (map_lookup_distinct
               (fun k v => emit "propertyChanged" [id; JStr k; v]) changed Hnodup).
    + intros k Hin. destruct (array_index k) as [n|] eqn:Hidx; [|reflexivity].
      exfalso. apply (Hplain k Hin). apply is_index_canonical.
      unfold is_index. rewrite Hidx. reflexivity.
Qed.

(** C10: for a text frame whose payload parses as a JSON object, the first
    thing the listener does is raise [message(payload.id, payload.data)],
    whatever the frame has or lacks: [id] and [data] are the values of the
    members of those names, [undefined] for a member the payload does not
    have, and the message type is not looked at before.  Whatever follows
    (a specific event, several, a warning, an error, or nothing) comes
    after it and is no [message] event. *)
Theorem message_event_comes_first
  (text : string) (props : list (string * JsValue)) (id data : JsValue) :
  JSON_parse text = Normal (JObj props) ->
  reads props "id" id ->
  reads props "data" data ->
  exists (rest : list Effect) (outcome : Completion unit),
    on_message (text_frame text) = (emit "message" [id; data] :: rest, outcome)
    /\ forallb (fun e => negb (is_message e)) rest = true.
Proof.
  intros Hparse Hid Hdata.
  rewrite (on_message_object text props Hparse), bind_perform.
  rewrite (lookup_reads props "id" id Hid), (lookup_reads props "data" data Hdata).
  eexists. eexists. split; [reflexivity|].
  destruct (lookup "id" props), (lookup "data" props) as [payload|] eqn:Hpayload;
    try reflexivity.
  - apply dispatch_device_specific.
  - exact (dispatch_connection_specific props payload Hpayload).
Qed.

Lemma keys_are_pair (keys : list string) :
  ((List.length keys =? 1)%nat && (nth 0 keys "" =? "pair")) = true <-> keys = ["pair"].
Proof.
  split.
  - destruct keys as [|k [|k' r]]; cbn; try discriminate.
    destruct (String.eqb_spec k "pair") as [->|]; [reflexivity|discriminate].
  - intros ->. reflexivity.
Qed.

(** C9, as the code has it: a frame with [data] and no [id] whose message
    type is [actionStatus] and whose data has exactly the one key [pair]
    raises [pair(data.pair)] and no other specific event; a frame of this
    class with any other message type raises no specific event and is
    logged; an [actionStatus] frame whose data (not [null]) is anything
    else raises no specific event and is not logged; with [null] data the
    enumeration of its keys throws. *)
Theorem connection_scoped_frames
  (text : string) (props : list (string * JsValue)) (data : JsValue) :
  JSON_parse text = Normal (JObj props) ->
  lookup "id" props = None ->
  lookup "data" props = Some data ->
  let messageType := from_option (lookup "messageType" props) in
  (is_string messageType "actionStatus" = true ->
   enumerable_keys data = ["pair"] ->
   on_message (text_frame text) =
     ([emit "message" [JUndefined; data]; emit "pair" [property data "pair"]],
      Normal tt))
  /\ (is_string messageType "actionStatus" = false ->
      on_message (text_frame text) =
        ([ emit "message" [JUndefined; data];
           console_warn [ JStr "Unknown message from socket"; JStr ""; JStr ":";
                          messageType; JStr "("; data; JStr ")" ] ],
         Normal tt))
  /\ (is_string messageType "actionStatus" = true ->
      enumerable_keys data <> ["pair"] ->
      data <> JNull -> data <> JUndefined ->
      on_message (text_frame text) = ([emit "message" [JUndefined; data]], Normal tt))
  /\ (is_string messageType "actionStatus" = true ->
      data = JNull ->
      exists e, on_message (text_frame text) = ([emit "message" [JUndefined; data]], Throw e)).
Proof.
  intros Hparse Hid Hdata messageType.
  assert (Hrun : on_message (text_frame text) =
            (emit "message" [JUndefined; data] :: fst (dispatch_connection (JObj props)),
             snd (dispatch_connection (JObj props)))).
  { rewrite (on_message_object text props Hparse), Hid, Hdata, bind_perform.
    reflexivity. }
  rewrite Hrun. repeat split.
  - intros Htype Hkeys.
    rewrite (dispatch_connection_actionStatus props data Hdata Htype).
    assert (Hok : Object_keys data = Normal ["pair"]).
    { destruct data; cbn in Hkeys; try discriminate; cbn; rewrite Hkeys; reflexivity. }
    rewrite Hok. reflexivity.
  - intros Htype. unfold dispatch_connection.
    rewrite get_object, bind_lift_normal. fold messageType. rewrite Htype.
    rewrite warn_unknown_object, Hid, Hdata. reflexivity.
  - intros Htype Hkeys Hnull Hundef.
    rewrite (dispatch_connection_actionStatus props data Hdata Htype).
    assert (Hok : Object_keys data = Normal (enumerable_keys data)).
    { destruct data; try reflexivity; congruence. }
    rewrite Hok.
    destruct ((List.length (enumerable_keys data) =? 1)%nat
              && (nth 0 (enumerable_keys data) "" =? "pair")) eqn:Hpair; [|reflexivity].
    apply keys_are_pair in Hpair. congruence.
  - intros Htype ->.
    rewrite (dispatch_connection_actionStatus props JNull Hdata Htype).
    eexists. reflexivity.
Qed.

(** C4, as the code has it: a frame that is not a text frame, and a text
    frame with no or an empty payload, is ignored: no event, no exception.
    A text frame whose payload is not empty and is not valid JSON raises
    no event either, but the error [JSON.parse] throws leaves the listener:
    nothing catches it. *)
Theorem frames_that_do_not_parse :
  (forall message, type message <> "utf8" -> on_message message = ([], Normal tt))
  /\ (forall message,
        utf8Data message = None \/ utf8Data message = Some "" ->
        on_message message = ([], Normal tt))
  /\ (forall text e,
        text <> "" ->
        JSON_parse text = Throw e ->
        on_message (text_frame text) = ([], Throw e)).
Proof.
  repeat split.
  - intros message Htype. unfold on_message.
    destruct (utf8Data message) as [text|]; [|reflexivity].
    destruct (String.eqb_spec (type message) "utf8") as [Heq|_]; [contradiction|].
    reflexivity.
  - intros message [Hnone|Hempty]; unfold on_message.
    + rewrite Hnone. reflexivity.
    + rewrite Hempty. cbn [String.eqb negb]. rewrite andb_false_r. reflexivity.
  - intros text e Hne Hparse. unfold on_message, text_frame. cbn [utf8Data type].
    destruct (String.eqb_spec text "") as [Heq|_]; [contradiction|].
    cbn [String.eqb Ascii.eqb Bool.eqb andb negb]. rewrite Hparse. reflexivity.
Qed.

(** ** The request executor *)

Lemma string_of_Z_exact (z : Z) : Z_of_string (string_of_Z z) = Some z.
Proof.
  unfold Z_of_string, string_of_Z.
  destruct (Z.to_int z) as [d|d] eqn:Hd.
  - destruct d as [| | | | | | | | | |];
      try (rewrite NilZero.isi by discriminate; cbn [option_map];
           rewrite <- Hd, DecimalZ.of_to; reflexivity).
    rewrite NilZero.isi_posnil. cbn [option_map].
    rewrite <- (DecimalZ.of_to z), Hd. reflexivity.
  - destruct d as [| | | | | | | | | |];
      try (rewrite NilZero.isi by discriminate; cbn [option_map];
           rewrite <- Hd, DecimalZ.of_to; reflexivity).
    rewrite NilZero.isi_negnil. cbn [option_map].
    rewrite <- (DecimalZ.of_to z), Hd. reflexivity.
Qed.

Lemma request_starts_with_fetch
  (this : WebThingsClient) (method_ path : string) (body_ : JsValue)
  (args : RequestArgs) (net : Promise Response) :
  exists rest,
    fst (request this method_ path body_ args net) =
      fetch (request_url this path) (request_init this method_ body_ args) :: rest.
Proof.
  unfold request. destruct net as [response|e]; [|eexists; reflexivity].
  destruct ((status response <? 200)%Z || (300 <=? status response)%Z);
    [eexists; reflexivity|].
  destruct (lacks _ _); [destruct (expectnocontent args)|]; eexists; reflexivity.
Qed.

(** C2: whatever the method, the path, the body and the flags, a response
    whose status is below 200 or at least 300 makes [request] reject with
    [`${status}: ${statusText}`], the status in decimal (it reads back as
    the same number); the only effect is the [fetch], so [response.json()]
    is not called. *)
Theorem status_outside_2xx_rejects
  (this : WebThingsClient) (method_ path : string) (body_ : JsValue)
  (args : RequestArgs) (response : Response) :
  (status response < 200 \/ 300 <= status response)%Z ->
  request this method_ path body_ args (Fulfilled response) =
    ([fetch (request_url this path) (request_init this method_ body_ args)],
     Rejected (Thrown (JStr (string_of_Z (status response) ^^ ": "
                             ^^ statusText response))))
  /\ ~ In response_json (fst (request this method_ path body_ args (Fulfilled response)))
  /\ Z_of_string (string_of_Z (status response)) = Some (status response).
Proof.
  intros Hstatus.
  assert (Hrun : request this method_ path body_ args (Fulfilled response) =
            ([fetch (request_url this path) (request_init this method_ body_ args)],
             Rejected (Thrown (JStr (string_of_Z (status response) ^^ ": "
                                     ^^ statusText response))))).
  { unfold request.
    assert (Hout : ((status response <? 200)%Z || (300 <=? status response)%Z) = true).
    { apply orb_true_iff. destruct Hstatus; [left; apply Z.ltb_lt|right; apply Z.leb_le];
        assumption. }
    rewrite Hout. reflexivity. }
  rewrite Hrun. repeat split.
  - cbn [fst In]. intros [H|[]]. discriminate H.
  - apply string_of_Z_exact.
Qed.

(** A request that is rejected rejects the call that made it, for [get],
    [put], [post], [getDevices] and [getDevice]. *)
Lemma failures_reach_the_caller
  (this : WebThingsClient) (path id : string) (value : JsValue) (net : Promise Response) :
  (forall e, snd (get this "/things" net) = Rejected e ->
             snd (getDevices this net) = Rejected e)
  /\ (forall e, snd (request this "GET" path JUndefined
                      {| nobody := true; strbody := false; expectnocontent := false |} net)
                = Rejected e ->
                snd (get this path net) = Rejected e)
  /\ (forall e, snd (request this "PUT" path value no_args net) = Rejected e ->
                snd (put this path value net) = Rejected e)
  /\ (forall e, snd (request this "POST" path value no_args net) = Rejected e ->
                snd (post this path value net) = Rejected e)
  /\ (forall e, snd (get this ("/things/" ^^ id) net) = Rejected e ->
                snd (getDevice this id net) = Rejected e).
Proof.
  repeat split; try (intros e H; exact H).
  - intros e H. unfold getDevices.
    destruct (get this "/things" net) as [es [v|e']]; cbn [snd] in *;
      [discriminate H|congruence].
  - intros e H. unfold getDevice.
    destruct (get this ("/things/" ^^ id) net) as [es [v|e']]; cbn [snd] in *;
      [discriminate H|congruence].
Qed.

(** [delete] returns a promise that is fulfilled whatever becomes of the
    request it started. *)
Lemma delete_does_not_wait (this : WebThingsClient) (path : string) (net : Promise Response) :
  deleted_returned (delete this path net) = Fulfilled JUndefined
  /\ deleted_floating (delete this path net) =
       snd (request this "DELETE" path (JStr "")
              {| nobody := false; strbody := true; expectnocontent := true |} net).
Proof. split; reflexivity. Qed.

(** C8, as the code has it: the request that [request] hands to [fetch]
    carries [Accept: application/json] and [Authorization: Bearer <token>];
    when a body is declared it carries [Content-Type: application/json],
    for a raw body as for a JSON one; when none is declared ([get]) it
    carries no content type, and as body what the client's fetch options
    hold, which the constructor leaves unset. *)
Theorem request_headers
  (this : WebThingsClient) (method_ path : string) (body_ : JsValue)
  (args : RequestArgs) (net : Promise Response) :
  let init := request_init this method_ body_ args in
  exists hs rest,
    fst (request this method_ path body_ args net) = fetch (request_url this path) init :: rest
    /\ headers init = Some hs
    /\ lookup "Accept" hs = Some "application/json"
    /\ lookup "Authorization" hs = Some ("Bearer " ^^ token this)
    /\ (nobody args = false ->
        lookup "Content-Type" hs = Some "application/json"
        /\ body init = if strbody args then Some (ToString body_) else JSON_stringify body_)
    /\ (nobody args = true ->
        lookup "Content-Type" hs = None /\ body init = body (fetchOptions this))
    /\ (forall host n jwt useHttps skipValidation,
          body (fetchOptions (new_WebThingsClient host n jwt useHttps skipValidation))
            = None).
Proof.
  intros init.
  destruct (request_starts_with_fetch this method_ path body_ args net) as [rest Hrest].
  unfold init, request_init in *. destruct (nobody args); cbn [negb] in *;
    eexists; exists rest; (split; [exact Hrest|]); (split; [reflexivity|]);
    repeat split; try reflexivity; try discriminate;
    intros host n jwt useHttps []; reflexivity.
Qed.

(** ** The resolver *)

(** C7, as the code has it.  [response] is what [fetch] hands to
    [local], [wire] what came in.  When [response] has a [Location] header
    whose value is not empty, the client uses [https] and [wss] on port
    4443 and does not validate certificates; when it has none, or an empty
    one, the client uses [http] and [ws] on port 8080 with the default
    validation; either way it keeps the caller's token.  A redirect that
    came in with a [Location] header, whatever its value, reaches [local]
    with the resolved location and selects the encrypted port; a response
    that is no redirect, or has no [Location], reaches [local] as it came
    in. *)
Theorem local_follows_the_location_header (jwt : string) (response wire : Response) :
  (forall location,
      header response "Location" = Some location -> location <> "" ->
      snd (local jwt (Fulfilled response)) =
        Fulfilled (new_WebThingsClient "localhost" 4443 jwt true true))
  /\ (header response "Location" = None \/ header response "Location" = Some "" ->
      snd (local jwt (Fulfilled response)) =
        Fulfilled (new_WebThingsClient "localhost" 8080 jwt false false))
  /\ (forall location,
        is_redirect (status wire) = true ->
        header wire "Location" = Some location ->
        header (manual_redirect resolved_location wire) "Location"
          = Some (resolved_location location)
        /\ snd (local jwt (Fulfilled (manual_redirect resolved_location wire))) =
             Fulfilled (new_WebThingsClient "localhost" 4443 jwt true true))
  /\ (is_redirect (status wire) = false \/ header wire "Location" = None ->
      manual_redirect resolved_location wire = wire)
  /\ (let encrypted := new_WebThingsClient "localhost" 4443 jwt true true in
      protocol encrypted = "https" /\ webSocketProtocol encrypted = "wss"
      /\ port encrypted = 4443%Z /\ token encrypted = jwt
      /\ agent (fetchOptions encrypted) = Some {| agent_rejectUnauthorized := false |}
      /\ tlsOptions (webSocketClientConfig encrypted)
           = Some {| tls_rejectUnauthorized := false |})
  /\ (let plain := new_WebThingsClient "localhost" 8080 jwt false false in
      protocol plain = "http" /\ webSocketProtocol plain = "ws"
      /\ port plain = 8080%Z /\ token plain = jwt
      /\ agent (fetchOptions plain) = None
      /\ tlsOptions (webSocketClientConfig plain) = None).
Proof.
  split; [|split; [|split; [|split; [|split; repeat split]]]].
  - intros location Hheader Hne. unfold local. rewrite Hheader. cbn [truthy_header].
    destruct (String.eqb_spec location "") as [Heq|_]; [contradiction|]. reflexivity.
  - intros [Hheader|Hheader]; unfold local; rewrite Hheader; reflexivity.
  - intros location Hredirect Hheader.
    assert (Hresolved : header (manual_redirect resolved_location wire) "Location"
                        = Some (resolved_location location)).
    { unfold manual_redirect. rewrite Hredirect, Hheader. cbn [header].
      rewrite String.eqb_refl. reflexivity. }
    split; [exact Hresolved|].
    unfold local. rewrite Hresolved. cbn [truthy_header].
    destruct (String.eqb_spec (resolved_location location) "") as [Heq|_];
      [destruct (resolved_location_not_empty location Heq)|]. reflexivity.
  - intros [Hplain|Hnone]; unfold manual_redirect.
    + rewrite Hplain. reflexivity.
    + rewrite Hnone. destruct (is_redirect (status wire)); reflexivity.
Qed.

(** ** The streaming channel: the socket *)

(** C5, as the code has it: the socket is opened at
    [{ws|wss}://{address}:{port}/things?jwt={token}] with the protocol, the
    address and the token of the client, and with the port given to
    [connect], 8080 when none is given: the port of the client is not
    read. *)
Theorem connect_opens_the_socket
  (this : WebThingsClient) (port : option Z) (outcome : ConnectOutcome) :
  fst (fst (connect this port outcome)) =
    [ websocket_connect (webSocketClientConfig this)
        ((webSocketProtocol this ^^ "://" ^^ address this ^^ ":"
          ^^ string_of_Z (match port with Some p => p | None => 8080%Z end)
          ^^ "/things")
         ^^ "?jwt=" ^^ token this) ]
  /\ (forall host n jwt useHttps skipValidation,
        webSocketProtocol (new_WebThingsClient host n jwt useHttps skipValidation)
          = if useHttps then "wss" else "ws").
Proof.
  split; [|reflexivity]. unfold connect. destruct outcome; reflexivity.
Qed.

(** ** The streaming channel: subscriptions *)





(* ================================================================== *)
(** * Further properties of the class *)
(* ================================================================== *)

(** ** The request executor: the answers that are not failures of status *)

Lemma status_in_range (response : Response) :
  (200 <= status response < 300)%Z ->
  ((status response <? 200)%Z || (300 <=? status response)%Z) = false.
Proof.
  intros [Hlow Hhigh]. apply orb_false_iff. split.
  - apply Z.ltb_ge. exact Hlow.
  - apply Z.leb_gt. exact Hhigh.
Qed.

Lemma request_of_json (this : WebThingsClient) (method_ path : string) (body_ : JsValue)
  (args : RequestArgs) (response : Response) :
  (200 <= status response < 300)%Z ->
  lacks "application/json" (or_empty (header response "Content-Type")) = false ->
  request this method_ path body_ args (Fulfilled response) =
    ([ fetch (request_url this path) (request_init this method_ body_ args);
       response_json ],
     json response).
Proof.
  intros Hstatus Hjson. unfold request.
  rewrite (status_in_range response Hstatus), Hjson. reflexivity.
Qed.

(** X1: a response with a status from 200 to 299 whose content type
    contains [application/json] (anywhere in it: parameters such as a
    charset may follow) is read with [response.json()], once and after the
    [fetch], and [request] settles as that reading does, also when the
    caller expected no content. *)
Theorem success_with_json_is_parsed
  (this : WebThingsClient) (method_ path : string) (body_ : JsValue)
  (args : RequestArgs) (response : Response) :
  (200 <= status response < 300)%Z ->
  lacks "application/json" (or_empty (header response "Content-Type")) = false ->
  request this method_ path body_ args (Fulfilled response) =
    ([ fetch (request_url this path) (request_init this method_ body_ args);
       response_json ],
     json response).
Proof. exact (request_of_json this method_ path body_ args response). Qed.

(** X2: a response with a status from 200 to 299 whose content type is
    absent, empty or without [application/json] is not read.  If the
    caller expected no content, [request] is fulfilled with [null];
    otherwise it rejects with a text that quotes the header, [null] when
    there is none. *)
Theorem success_without_json
  (this : WebThingsClient) (method_ path : string) (body_ : JsValue)
  (args : RequestArgs) (response : Response) :
  (200 <= status response < 300)%Z ->
  lacks "application/json" (or_empty (header response "Content-Type")) = true ->
  request this method_ path body_ args (Fulfilled response) =
    ([fetch (request_url this path) (request_init this method_ body_ args)],
     if expectnocontent args
     then Fulfilled JNull
     else Rejected (Thrown (JStr ("Content-Type is '"
                                  ^^ show_nullable (header response "Content-Type")
                                  ^^ "' but expected 'application/json'")))).
Proof.
  intros Hstatus Hnone. unfold request.
  rewrite (status_in_range response Hstatus), Hnone.
  destruct (expectnocontent args); reflexivity.
Qed.

(** X3: [request] calls [fetch] exactly once, at
    [{protocol}://{address}:{port}{path}], and does nothing else but,
    at most, read the body afterwards: it never retries.  When the
    [fetch] itself fails, [request] rejects with the same error. *)
Theorem request_fetches_once
  (this : WebThingsClient) (method_ path : string) (body_ : JsValue)
  (args : RequestArgs) (net : Promise Response) :
  let call := fetch (protocol this ^^ "://" ^^ address this ^^ ":"
                     ^^ string_of_Z (port this) ^^ path)
                    (request_init this method_ body_ args) in
  (fst (request this method_ path body_ args net) = [call]
   \/ fst (request this method_ path body_ args net) = [call; response_json])
  /\ (forall e, net = Rejected e ->
        request this method_ path body_ args net = ([call], Rejected e)).
Proof.
  intros call. split.
  - unfold request. destruct net as [response|e]; [|left; reflexivity].
    destruct ((status response <? 200)%Z || (300 <=? status response)%Z);
      [left; reflexivity|].
    destruct (lacks _ _); [destruct (expectnocontent args); left; reflexivity|].
    right. reflexivity.
  - intros e ->. reflexivity.
Qed.

(** ** The inbound dispatch: the other message types *)

Lemma on_message_device (text : string) (props : list (string * JsValue))
  (id data : JsValue) :
  JSON_parse text = Normal (JObj props) ->
  lookup "id" props = Some id ->
  lookup "data" props = Some data ->
  on_message (text_frame text) =
    (emit "message" [id; data] :: fst (dispatch_device (JObj props)),
     snd (dispatch_device (JObj props))).
Proof.
  intros Hparse Hid Hdata.
  rewrite (on_message_object text props Hparse), Hid, Hdata, bind_perform. reflexivity.
Qed.

Lemma dispatch_spread (props : list (string * JsValue)) (messageType event : string) :
  In (messageType, event) spread_types ->
  lookup "messageType" props = Some (JStr messageType) ->
  dispatch_device (JObj props) = emit_each event (JObj props).
Proof.
  intros Hin Htype. unfold dispatch_device.
  rewrite get_object, Htype, bind_lift_normal. cbn [from_option].
  destruct Hin as [H|[H|[H|[]]]]; inversion H; subst; reflexivity.
Qed.

Lemma dispatch_whole (props : list (string * JsValue)) (messageType event : string) :
  In (messageType, event) whole_types ->
  lookup "messageType" props = Some (JStr messageType) ->
  dispatch_device (JObj props) = emit_whole event (JObj props).
Proof.
  intros Hin Htype. unfold dispatch_device.
  rewrite get_object, Htype, bind_lift_normal. cbn [from_option].
  destruct Hin as [H|[H|[H|[H|[]]]]]; inversion H; subst; reflexivity.
Qed.

(** X4: the three message types that carry a batch, [propertyStatus],
    [actionStatus] and [event], are handled alike: after [message(id,
    data)] the frame raises [propertyChanged], [actionTriggered] or
    [eventRaised] with [(id, key, data[key])], once per key that
    [for ... in] enumerates over the data, and nothing else. *)
Theorem batch_types_raise_one_event_per_key
  (text : string) (props : list (string * JsValue)) (id data : JsValue)
  (messageType event : string) :
  JSON_parse text = Normal (JObj props) ->
  lookup "id" props = Some id ->
  lookup "data" props = Some data ->
  In (messageType, event) spread_types ->
  lookup "messageType" props = Some (JStr messageType) ->
  on_message (text_frame text) =
    (emit "message" [id; data]
       :: map (fun key => emit event [id; JStr key; property data key]) (for_in_keys data),
     Normal tt).
Proof.
  intros Hparse Hid Hdata Hin Htype.
  rewrite (on_message_device text props id data Hparse Hid Hdata).
  rewrite (dispatch_spread props messageType event Hin Htype).
  rewrite emit_each_object, Hid, Hdata. reflexivity.
Qed.

(** X5: [connected], [thingModified], [thingAdded] and [thingRemoved]
    raise, after [message(id, data)], exactly one event,
    [connectStateChanged], [deviceModified], [deviceAdded] or
    [deviceRemoved], with the id and the whole data, whatever the data is:
    it is not enumerated. *)
Theorem whole_types_raise_one_event
  (text : string) (props : list (string * JsValue)) (id data : JsValue)
  (messageType event : string) :
  JSON_parse text = Normal (JObj props) ->
  lookup "id" props = Some id ->
  lookup "data" props = Some data ->
  In (messageType, event) whole_types ->
  lookup "messageType" props = Some (JStr messageType) ->
  on_message (text_frame text) =
    ([emit "message" [id; data]; emit event [id; data]], Normal tt).
Proof.
  intros Hparse Hid Hdata Hin Htype.
  rewrite (on_message_device text props id data Hparse Hid Hdata).
  rewrite (dispatch_whole props messageType event Hin Htype).
  rewrite emit_whole_object, Hid, Hdata. reflexivity.
Qed.

Lemma dispatch_unknown (props : list (string * JsValue)) :
  known_type (from_option (lookup "messageType" props)) = false ->
  dispatch_device (JObj props) = warn_unknown (JObj props).
Proof.
  unfold known_type, dispatch_device. rewrite get_object, bind_lift_normal.
  cbn [existsb app spread_types whole_types fst]. intros Hunknown.
  repeat (apply orb_false_iff in Hunknown;
          let Hhere := fresh "Hhere" in
          destruct Hunknown as [Hhere Hunknown]; rewrite Hhere).
  reflexivity.
Qed.

(** X6: a frame with [id] and [data] whose message type is none of the
    seven known ones (a string the [switch] does not list, a value that
    is not a string, or no message type at all) raises [message(id,
    data)] and nothing more; one warning is logged with the id (the empty
    string in place of an id that is falsy), the message type and the
    data. *)
Theorem unknown_type_is_logged
  (text : string) (props : list (string * JsValue)) (id data : JsValue) :
  JSON_parse text = Normal (JObj props) ->
  lookup "id" props = Some id ->
  lookup "data" props = Some data ->
  known_type (from_option (lookup "messageType" props)) = false ->
  on_message (text_frame text) =
    ([ emit "message" [id; data];
       console_warn [ JStr "Unknown message from socket"; or_else id (JStr "");
                      JStr ":"; from_option (lookup "messageType" props);
                      JStr "("; data; JStr ")" ] ],
     Normal tt).
Proof.
  intros Hparse Hid Hdata Hunknown.
  rewrite (on_message_device text props id data Hparse Hid Hdata).
  rewrite (dispatch_unknown props Hunknown), warn_unknown_object, Hid, Hdata.
  reflexivity.
Qed.

(** X7: a frame without [data] raises [message] (with [undefined] for
    the data) and nothing else, whatever its message type and whether or
    not it has an id: no specific event, no warning, no error. *)
Theorem frame_without_data_raises_message_only
  (text : string) (props : list (string * JsValue)) :
  JSON_parse text = Normal (JObj props) ->
  lookup "data" props = None ->
  on_message (text_frame text) =
    ([emit "message" [from_option (lookup "id" props); JUndefined]], Normal tt).
Proof.
  intros Hparse Hdata.
  rewrite (on_message_object text props Hparse), Hdata, bind_perform.
  destruct (lookup "id" props); reflexivity.
Qed.

(** ** The inbound dispatch: payloads that are not objects *)

Lemma on_message_text (text : string) (msg : JsValue) :
  JSON_parse text = Normal msg ->
  on_message (text_frame text) =
    (id <- lift (Js.get msg "id") ;;
     data <- lift (Js.get msg "data") ;;
     perform (emit "message" [id; data]) ;;
     has_id <- lift (has_property "id" msg) ;;
     has_data <- (if has_id then lift (has_property "data" msg) else ret false) ;;
     if has_id && has_data then dispatch_device msg
     else
       has_data <- lift (has_property "data" msg) ;;
       if has_data then dispatch_connection msg else ret tt).
Proof.
  intros Hparse. unfold on_message, text_frame. cbn [utf8Data type].
  rewrite (parsed_not_empty text _ Hparse). cbn [String.eqb Ascii.eqb Bool.eqb andb negb].
  rewrite Hparse, bind_lift_normal. reflexivity.
Qed.

(** X8: a text frame whose payload is valid JSON but not an object.  For
    [null] reading [msg.id] throws: no event is raised and the error
    leaves the listener.  For a boolean, a number or a string the listener
    raises [message(undefined, undefined)] and then the [in] test throws.
    For an array it raises [message(undefined, undefined)] and returns:
    an array has neither [id] nor [data]. *)
Theorem payloads_that_are_not_objects (text : string) :
  (JSON_parse text = Normal JNull ->
   exists e, on_message (text_frame text) = ([], Throw e))
  /\ (forall v,
        JSON_parse text = Normal v -> scalar v = true ->
        exists e,
          on_message (text_frame text) =
            ([emit "message" [JUndefined; JUndefined]], Throw e))
  /\ (forall elements,
        JSON_parse text = Normal (JArr elements) ->
        on_message (text_frame text) =
          ([emit "message" [JUndefined; JUndefined]], Normal tt)).
Proof.
  repeat split.
  - intros Hparse. rewrite (on_message_text text _ Hparse). eexists. reflexivity.
  - intros v Hparse Hscalar. rewrite (on_message_text text _ Hparse).
    destruct v; try discriminate Hscalar; eexists; vm_compute; reflexivity.
  - intros elements Hparse. rewrite (on_message_text text _ Hparse).
    vm_compute. reflexivity.
Qed.

(** ** The inbound dispatch: what the listener never does *)

Lemma forallb_map_listener {A : Type} (f : A -> Effect) (l : list A) :
  (forall x, listener_effect (f x) = true) -> forallb listener_effect (map f l) = true.
Proof.
  intros Hf. induction l as [|x r IH]; [reflexivity|].
  cbn [map forallb]. rewrite Hf, IH. reflexivity.
Qed.

Lemma dispatch_device_effects (props : list (string * JsValue)) :
  forallb listener_effect (fst (dispatch_device (JObj props))) = true.
Proof.
  unfold dispatch_device. rewrite get_object, bind_lift_normal.
  repeat match goal with
         | |- context [if is_string ?v ?t then _ else _] => destruct (is_string v t)
         end;
    rewrite ?emit_each_object, ?emit_whole_object, ?warn_unknown_object; cbn [fst];
    try reflexivity; apply forallb_map_listener; reflexivity.
Qed.

Lemma dispatch_connection_effects (props : list (string * JsValue)) (data : JsValue) :
  lookup "data" props = Some data ->
  forallb listener_effect (fst (dispatch_connection (JObj props))) = true.
Proof.
  intros Hdata.
  destruct (is_string (from_option (lookup "messageType" props)) "actionStatus") eqn:Htype.
  - rewrite (dispatch_connection_actionStatus props data Hdata Htype).
    destruct (Object_keys data) as [keys|e]; [|reflexivity].
    destruct (_ && _); reflexivity.
  - unfold dispatch_connection. rewrite get_object, bind_lift_normal, Htype.
    rewrite warn_unknown_object. reflexivity.
Qed.

(** The listener on a frame that passes the test of its first line. *)
Lemma on_message_guard (message : IMessage) :
  on_message message = ([], Normal tt)
  \/ exists text,
       on_message message =
         (msg <- lift (JSON_parse text) ;;
          id <- lift (Js.get msg "id") ;;
          data <- lift (Js.get msg "data") ;;
          perform (emit "message" [id; data]) ;;
          has_id <- lift (has_property "id" msg) ;;
          has_data <- (if has_id then lift (has_property "data" msg) else ret false) ;;
          if has_id && has_data then dispatch_device msg
          else
            has_data <- lift (has_property "data" msg) ;;
            if has_data then dispatch_connection msg else ret tt).
Proof.
  unfold on_message.
  destruct (utf8Data message) as [text|]; [|left; reflexivity].
  destruct ((type message =? "utf8") && negb (text =? "")); [|left; reflexivity].
  right. exists text. reflexivity.
Qed.

(** After [message], on an object. *)
Lemma shape_dispatch_effects (props : list (string * JsValue)) :
  forallb listener_effect
    (fst (has_id <- lift (has_property "id" (JObj props)) ;;
          has_data <- (if has_id then lift (has_property "data" (JObj props))
                       else ret false) ;;
          if has_id && has_data then dispatch_device (JObj props)
          else
            has_data <- lift (has_property "data" (JObj props)) ;;
            if has_data then dispatch_connection (JObj props) else ret tt)) = true.
Proof.
  cbn [has_property].
  destruct (lookup "id" props), (lookup "data" props) as [data|] eqn:Hdata;
    unfold bind, lift, ret; cbn [andb app];
    try reflexivity.
  - pose proof (dispatch_device_effects props) as Heffects.
    destruct (dispatch_device (JObj props)). exact Heffects.
  - pose proof (dispatch_connection_effects props data Hdata) as Heffects.
    destruct (dispatch_connection (JObj props)). exact Heffects.
Qed.

(** X9: whatever the frame, and whatever the parser makes of it, the
    listener of the socket only raises events and logs warnings (it never
    fetches, never writes to or closes the connection), and the first
    thing it does, if it does anything, is to raise [message]. *)
Theorem listener_only_raises_events (message : IMessage) :
  forallb listener_effect (fst (on_message message)) = true
  /\ (fst (on_message message) = []
      \/ exists id data rest,
           fst (on_message message) = emit "message" [id; data] :: rest).
Proof.
  destruct (on_message_guard message) as [Hskip|[text Htext]];
    [rewrite Hskip; split; [reflexivity|left; reflexivity]|].
  rewrite Htext. clear Htext message.
  destruct (JSON_parse text) as [msg|e];
    [|split; [reflexivity|left; reflexivity]].
  rewrite bind_lift_normal.
  destruct msg as [| | b | n | str0 | elements | props].
  - split; [reflexivity|left; reflexivity].
  - split; [reflexivity|left; reflexivity].
  - split; [reflexivity|right; do 3 eexists; reflexivity].
  - split; [reflexivity|right; do 3 eexists; reflexivity].
  - split; [vm_compute; reflexivity|right; do 3 eexists; vm_compute; reflexivity].
  - split; [vm_compute; reflexivity|right; do 3 eexists; vm_compute; reflexivity].
  - rewrite !get_object, !bind_lift_normal, bind_perform. cbn [fst forallb].
    split; [|right; do 3 eexists; reflexivity].
    cbn [listener_effect andb]. apply shape_dispatch_effects.
Qed.

(** ** The inbound dispatch: no key lost, none doubled *)

(** X10: for a batch frame whose data is an object with distinct keys,
    the events after [message] are, up to their order, exactly one per
    property of the data, each with the key and its own value: no
    property is skipped and none is reported twice, also when keys that
    are array indices are moved to the front. *)
Theorem batch_events_cover_the_properties
  (text : string) (props changed : list (string * JsValue)) (id : JsValue)
  (messageType event : string) :
  JSON_parse text = Normal (JObj props) ->
  lookup "id" props = Some id ->
  lookup "data" props = Some (JObj changed) ->
  In (messageType, event) spread_types ->
  lookup "messageType" props = Some (JStr messageType) ->
  NoDup (map fst changed) ->
  exists events,
    on_message (text_frame text) = (emit "message" [id; JObj changed] :: events, Normal tt)
    /\ Permutation events
         (map (fun kv => emit event [id; JStr (fst kv); snd kv]) changed)
    /\ List.length events = List.length changed.
Proof.
  intros Hparse Hid Hdata Hin Htype Hnodup.
  exists (map (fun key => emit event [id; JStr key; property (JObj changed) key])
              (for_in_keys (JObj changed))).
  split.
  - rewrite (on_message_device text props id _ Hparse Hid Hdata).
    rewrite (dispatch_spread props messageType event Hin Htype).
    rewrite emit_each_object, Hid, Hdata. reflexivity.
  - assert (Hperm : Permutation
              (map (fun key => emit event [id; JStr key; property (JObj changed) key])
                   (for_in_keys (JObj changed)))
              (map (fun kv => emit event [id; JStr (fst kv); snd kv]) changed)).
    { rewrite <- (map_lookup_distinct (fun k v => emit event [id; JStr k; v])
                    changed Hnodup).
      apply Permutation_map. cbn [for_in_keys enumerable_keys]. unfold own_keys.
      apply ordered_keys_permutation. }
    split; [exact Hperm|].
    rewrite (Permutation_length Hperm), length_map. reflexivity.
Qed.

(** ** The inbound dispatch: data that is a list *)

(** X11: when the data of a batch frame is a JSON array (of a length an
    array can have), the frame raises one event per element, in the order
    of the elements, with the decimal index as key and the element as
    value. *)
Theorem batch_of_a_list_raises_one_event_per_element
  (text : string) (props : list (string * JsValue)) (id : JsValue)
  (elements : list JsValue) (messageType event : string) :
  JSON_parse text = Normal (JObj props) ->
  lookup "id" props = Some id ->
  lookup "data" props = Some (JArr elements) ->
  In (messageType, event) spread_types ->
  lookup "messageType" props = Some (JStr messageType) ->
  (N.of_nat (List.length elements) <= 4294967295)%N ->
  on_message (text_frame text) =
    (emit "message" [id; JArr elements]
       :: map (fun i => emit event [id; JStr (string_of_nat i); nth i elements JUndefined])
            (seq 0 (List.length elements)),
     Normal tt).
Proof.
  intros Hparse Hid Hdata Hin Htype Hsize.
  rewrite (on_message_device text props id _ Hparse Hid Hdata).
  rewrite (dispatch_spread props messageType event Hin Htype).
  rewrite emit_each_object, Hid, Hdata. cbn [from_option fst snd].
  cbn [for_in_keys enumerable_keys]. unfold indices. rewrite map_map.
  do 2 f_equal. apply map_ext_in. intros i Hi. apply in_seq in Hi.
  unfold property. cbn [Js.get].
  rewrite array_index_of_nat by lia. rewrite Nat2N.id. reflexivity.
Qed.

(** ** The client over time *)

Lemma step_keeps_the_descriptor (this : WebThingsClient) (op : ChannelOp) :
  address (step this op) = address this
  /\ port (step this op) = port this
  /\ token (step this op) = token this
  /\ protocol (step this op) = protocol this
  /\ webSocketProtocol (step this op) = webSocketProtocol this
  /\ fetchOptions (step this op) = fetchOptions this
  /\ webSocketClientConfig (step this op)
       = if attempted op then {| tlsOptions := None |} else webSocketClientConfig this.
Proof.
  destruct op as [p [k|error]| | |m];
    cbn [step connect closed snd fst attempted];
    try (repeat split; reflexivity);
    unfold mark_closed; destruct (connection this); repeat split; reflexivity.
Qed.

Lemma run_keeps_the_descriptor (ops : list ChannelOp) (this : WebThingsClient) :
  address (run this ops) = address this
  /\ port (run this ops) = port this
  /\ token (run this ops) = token this
  /\ protocol (run this ops) = protocol this
  /\ webSocketProtocol (run this ops) = webSocketProtocol this
  /\ fetchOptions (run this ops) = fetchOptions this.
Proof.
  unfold run. revert this. induction ops as [|op rest IH]; intros this.
  - repeat split; reflexivity.
  - cbn [fold_left].
    destruct (IH (step this op)) as (Ha & Hp & Ht & Hpr & Hw & Hf).
    destruct (step_keeps_the_descriptor this op) as (Ha' & Hp' & Ht' & Hpr' & Hw' & Hf' & _).
    repeat split; congruence.
Qed.

Lemma run_empties_the_configuration (ops : list ChannelOp) (this : WebThingsClient) :
  webSocketClientConfig (run this ops)
    = if existsb attempted ops then {| tlsOptions := None |} else webSocketClientConfig this.
Proof.
  unfold run. revert this. induction ops as [|op rest IH]; intros this; [reflexivity|].
  cbn [fold_left existsb]. rewrite IH.
  destruct (step_keeps_the_descriptor this op) as (_ & _ & _ & _ & _ & _ & Hc).
  rewrite Hc. destruct (attempted op), (existsb attempted rest); reflexivity.
Qed.

(** X12: nothing that happens on the channel (connecting, with or
    without success, a close of the socket, a disconnect, a frame)
    changes the address, the port, the token, the protocols or the fetch
    options of the client: requests are sent to the same URL with the
    same parameters before and after.  The configuration of the socket is
    as it was built until the first attempt to connect and holds no TLS
    options from then on, because the library deletes them from the
    object it is given: whatever [skipValidation] was, every later
    [connect] hands the library a configuration without TLS options. *)
Theorem channel_never_changes_the_descriptor (this : WebThingsClient) (ops : list ChannelOp) :
  address (run this ops) = address this
  /\ port (run this ops) = port this
  /\ token (run this ops) = token this
  /\ protocol (run this ops) = protocol this
  /\ webSocketProtocol (run this ops) = webSocketProtocol this
  /\ fetchOptions (run this ops) = fetchOptions this
  /\ (forall method_ path body_ args,
        request_url (run this ops) path = request_url this path
        /\ request_init (run this ops) method_ body_ args
             = request_init this method_ body_ args)
  /\ (existsb attempted ops = false ->
      webSocketClientConfig (run this ops) = webSocketClientConfig this)
  /\ (existsb attempted ops = true ->
      webSocketClientConfig (run this ops) = {| tlsOptions := None |}
      /\ forall n outcome,
           exists url,
             fst (fst (connect (run this ops) n outcome))
               = [websocket_connect {| tlsOptions := None |} url]).
Proof.
  destruct (run_keeps_the_descriptor ops this) as (Ha & Hp & Ht & Hpr & Hw & Hf).
  pose proof (run_empties_the_configuration ops this) as Hc.
  repeat split; try assumption.
  - unfold request_url. rewrite Ha, Hp, Hpr. reflexivity.
  - unfold request_init. rewrite Ht, Hf. reflexivity.
  - intros Hnone. rewrite Hc, Hnone. reflexivity.
  - rewrite Hc, H. reflexivity.
  - intros n outcome. rewrite H in Hc. unfold connect. rewrite Hc.
    eexists. destruct outcome; reflexivity.
Qed.

Lemma run_socket (ops : list ChannelOp) (this : WebThingsClient) :
  option_map socket (connection (run this ops))
    = last_socket (option_map socket (connection this)) ops.
Proof.
  unfold run, last_socket. revert this.
  induction ops as [|op rest IH]; intros this; [reflexivity|].
  cbn [fold_left]. rewrite IH. f_equal.
  destruct op as [p [k|error]| | |m]; cbn [step connect closed snd fst]; try reflexivity;
    unfold mark_closed; destruct (connection this) as [k|] eqn:Hk;
    solve [reflexivity|rewrite Hk; reflexivity].
Qed.

Lemma last_socket_some (ops : list ChannelOp) (n : nat) :
  exists n', last_socket (Some n) ops = Some n'.
Proof.
  unfold last_socket. revert n. induction ops as [|op rest IH]; intros n.
  - exists n. reflexivity.
  - cbn [fold_left]. destruct op as [p [k|error]| | |m]; apply IH.
Qed.

Lemma last_socket_none (ops : list ChannelOp) :
  last_socket None ops = None <-> existsb succeeded ops = false.
Proof.
  unfold last_socket. induction ops as [|op rest IH]; [split; reflexivity|].
  cbn [fold_left existsb]. destruct op as [p [k|error]| | |m]; cbn [succeeded orb];
    try exact IH.
  split; [|discriminate]. intros Hnone.
  destruct (last_socket_some rest (socket k)) as [n' Hsome].
  unfold last_socket in Hsome. congruence.
Qed.

(** X13: [disconnect] over the life of a client.  As long as no attempt
    to connect has succeeded, it rejects with [Error('Socket not
    connected!')] and touches nothing.  From the first success on it never
    rejects again: it calls [close] on the stored connection, which is the
    one of the latest successful [connect], also after that socket has
    closed and after earlier calls of [disconnect]. *)
Theorem disconnect_over_time
  (host : string) (n : Z) (jwt : string) (useHttps skipValidation : bool)
  (ops : list ChannelOp) :
  let this := run (new_WebThingsClient host n jwt useHttps skipValidation) ops in
  (existsb succeeded ops = false ->
   disconnect this = ([], Rejected (Error "Socket not connected!")))
  /\ (existsb succeeded ops = true ->
      exists k,
        connection this = Some k
        /\ Some (socket k) = last_socket None ops
        /\ disconnect this = ([connection_close k], Fulfilled tt)).
Proof.
  intros this.
  pose proof (run_socket ops (new_WebThingsClient host n jwt useHttps skipValidation))
    as Hsocket.
  fold this in Hsocket. cbn [connection new_WebThingsClient option_map] in Hsocket.
  split; intros Hops.
  - apply last_socket_none in Hops. rewrite Hops in Hsocket.
    unfold disconnect. destruct (connection this); [discriminate Hsocket|reflexivity].
  - unfold disconnect. destruct (connection this) as [k|] eqn:Hk.
    + exists k. repeat split. exact Hsocket.
    + exfalso. cbn [option_map] in Hsocket. symmetry in Hsocket.
      apply last_socket_none in Hsocket. congruence.
Qed.

(** ** The resolver: the probe *)

(** X14: [local] first logs the port and sends one probe, to
    [http://localhost:8080] with [redirect: 'manual'] and nothing else (no
    header, so no token, and no relaxed agent), and when that probe fails
    it rejects with the error of the probe and builds no client. *)
Theorem local_probes_without_the_token (jwt : string) (probe : Promise Response) :
  let sent :=
    [ console_log "Probing port 8080";
      fetch "http://localhost:8080"
        {| agent := None; method := None; headers := None; body := None;
           redirect := Some "manual" |} ] in
  (exists logged, fst (local jwt probe) = sent ++ logged
                  /\ forallb (fun e => match e with console_log _ => true | _ => false end)
                       logged = true)
  /\ (forall e, probe = Rejected e -> local jwt probe = (sent, Rejected e)).
Proof.
  intros sent. split.
  - unfold local. destruct probe as [response|e].
    + destruct (truthy_header (header response "Location"));
        eexists; split; reflexivity.
    + exists []. split; reflexivity.
  - intros e ->. reflexivity.
Qed.

(** ** The callers of [get] and [put] *)

Lemma get_of_json (this : WebThingsClient) (path : string) (response : Response)
  (v : JsValue) :
  answers_json response v ->
  get this path (Fulfilled response) =
    ([ fetch (request_url this path)
         (request_init this "GET" JUndefined
            {| nobody := true; strbody := false; expectnocontent := false |});
       response_json ],
     Fulfilled v).
Proof.
  intros (Hstatus & Hjson & Hbody). unfold get.
  rewrite (request_of_json _ _ _ _ _ response Hstatus Hjson), Hbody. reflexivity.
Qed.

(** X15: [getDevices] asks for [/things] once.  When the answer is a JSON
    array it builds one device per element, in the order of the array,
    each from its element and this client; an answer that is valid JSON
    but not an array rejects the call with a [TypeError].  [getDevice]
    asks for [/things/{id}] and builds the device from whatever JSON
    value is answered, without looking at it. *)
Theorem devices_are_built_from_the_answer
  (this : WebThingsClient) (response : Response) (v : JsValue) :
  answers_json response v ->
  (forall descriptions,
      v = JArr descriptions ->
      getDevices this (Fulfilled response) =
        ([ fetch (request_url this "/things")
             (request_init this "GET" JUndefined
                {| nobody := true; strbody := false; expectnocontent := false |});
           response_json ],
         Fulfilled (map (fun description => new_Device description this) descriptions)))
  /\ ((forall descriptions, v <> JArr descriptions) ->
      exists message,
        snd (getDevices this (Fulfilled response)) = Rejected (TypeError message))
  /\ (forall id,
        snd (getDevice this id (Fulfilled response)) = Fulfilled (new_Device v this)
        /\ exists rest,
             fst (getDevice this id (Fulfilled response)) =
               fetch (protocol this ^^ "://" ^^ address this ^^ ":"
                      ^^ string_of_Z (port this) ^^ "/things/" ^^ id)
                     (request_init this "GET" JUndefined
                        {| nobody := true; strbody := false; expectnocontent := false |})
               :: rest).
Proof.
  intros Hanswer. repeat split.
  - intros descriptions ->. unfold getDevices.
    rewrite (get_of_json this "/things" response _ Hanswer). reflexivity.
  - intros Hother. unfold getDevices.
    rewrite (get_of_json this "/things" response v Hanswer).
    destruct v; try (eexists; reflexivity). exfalso. exact (Hother _ eq_refl).
  - unfold getDevice. rewrite (get_of_json this _ response v Hanswer). reflexivity.
  - unfold getDevice. rewrite (get_of_json this _ response v Hanswer).
    eexists. reflexivity.
Qed.

(** X16: [getValue] of a property asks for the address of the property
    and returns the member of the answer that carries the property's
    name.  Of a JSON object that has the member it returns the member's
    value.  Of a JSON object without that member it returns [undefined],
    not an error, unless the name is one of the members every object
    inherits ([constructor], [toString], [valueOf], [hasOwnProperty],
    [__proto__], ...): then it returns that built-in member.  The answer
    [null] rejects the call with a [TypeError]; and a request that is
    rejected rejects the call with the same error. *)
Theorem getValue_reads_the_named_member
  (this : Property) (response : Response) (wrapper : JsValue) :
  answers_json response wrapper ->
  (forall props,
      wrapper = JObj props ->
      (forall v,
          has_member props (name this) v ->
          snd (getValue this (Fulfilled response)) = Fulfilled (plain v))
      /\ (~ In (name this) (map fst props) ->
          ~ In (name this) Object_prototype_members ->
          snd (getValue this (Fulfilled response)) = Fulfilled (plain JUndefined))
      /\ (~ In (name this) (map fst props) ->
          In (name this) Object_prototype_members ->
          snd (getValue this (Fulfilled response)) = Fulfilled (builtin (name this))))
  /\ (wrapper = JNull ->
      exists message, snd (getValue this (Fulfilled response)) = Rejected (TypeError message))
  /\ (forall net e,
        snd (get (Device_client (device this)) (href this) net) = Rejected e ->
        snd (getValue this net) = Rejected e)
  /\ (exists rest,
        fst (getValue this (Fulfilled response)) =
          fetch (request_url (Device_client (device this))
                   (hrefFromLinksArray (links (description this)) "property"))
                (request_init (Device_client (device this)) "GET" JUndefined
                   {| nobody := true; strbody := false; expectnocontent := false |})
          :: rest).
Proof.
  intros Hanswer.
  assert (Hmembers : forall k,
             existsb (String.eqb k) Object_prototype_members = true
             <-> In k Object_prototype_members).
  { intros k. rewrite existsb_exists. split.
    - intros [x [Hin Heq]]. apply String.eqb_eq in Heq. subst x. exact Hin.
    - intros Hin. exists k. split; [exact Hin|apply String.eqb_refl]. }
  split; [|split; [|split]].
  - intros props ->. unfold getValue.
    rewrite (get_of_json _ _ response _ Hanswer). unfold read. cbn [Js.get has_own].
    split; [|split].
    + intros v Hmember. rewrite (lookup_has_member _ _ _ Hmember). reflexivity.
    + intros Habsent Hplain. rewrite (lookup_not_in _ _ Habsent).
      destruct (existsb (String.eqb (name this)) Object_prototype_members) eqn:Hproto.
      * apply Hmembers in Hproto. contradiction.
      * reflexivity.
    + intros Habsent Hproto. rewrite (lookup_not_in _ _ Habsent).
      apply Hmembers in Hproto. rewrite Hproto. reflexivity.
  - intros ->. unfold getValue. rewrite (get_of_json _ _ response _ Hanswer).
    eexists. reflexivity.
  - intros net e Hfail. unfold getValue.
    destruct (get (Device_client (device this)) (href this) net) as [es [v|e']];
      cbn [snd] in *; [discriminate Hfail|].
    injection Hfail as ->. reflexivity.
  - unfold getValue, href. rewrite (get_of_json _ _ response _ Hanswer).
    destruct (read prototype_has wrapper (name this)); eexists; reflexivity.
Qed.


End Class.

(* ================================================================== *)
(** * The properties at concrete inputs *)
(* ================================================================== *)

(** The parameters of the class are instantiated with the reference
    [JSON]; in the subscription examples a device is its id and an event
    its description. *)

Lemma reference_parse_rejects_empty : forall v, JSON.parse "" <> Normal v.
Proof. intros v H. vm_compute in H. discriminate H. Qed.

(** ** C1 *)

(** A frame whose data is received with the keys [on], [2], [1]. *)
Lemma propertyStatus_frame_mixed_keys :
  on_message JSON.parse (text_frame frame_mixed_keys) =
    ([ emit "message"
         [JStr "d1"; JObj [("on", JBool true); ("2", JBool false); ("1", JNull)]];
       emit "propertyChanged" [JStr "d1"; JStr "1"; JNull];
       emit "propertyChanged" [JStr "d1"; JStr "2"; JBool false];
       emit "propertyChanged" [JStr "d1"; JStr "on"; JBool true] ],
     Normal tt).
Proof.
  refine (proj1 (propertyStatus_message_then_each_key JSON.parse
                   reference_parse_rejects_empty frame_mixed_keys
                   [ ("id", JStr "d1");
                     ("data", JObj [("on", JBool true); ("2", JBool false); ("1", JNull)]);
                     ("messageType", JStr "propertyStatus") ]
                   (JStr "d1")
                   (JObj [("on", JBool true); ("2", JBool false); ("1", JNull)])
                   _ _ _ _)); vm_compute; reflexivity.
Defined.

(** The keys of that frame are received in the order [on], [2], [1]; the
    events do not come in that order. *)
Lemma propertyStatus_keys_are_reordered :
  JSON.parse frame_mixed_keys =
    Normal (JObj [ ("id", JStr "d1");
                   ("data", JObj [("on", JBool true); ("2", JBool false); ("1", JNull)]);
                   ("messageType", JStr "propertyStatus") ])
  /\ fst (on_message JSON.parse (text_frame frame_mixed_keys)) =
       [ emit "message"
           [JStr "d1"; JObj [("on", JBool true); ("2", JBool false); ("1", JNull)]];
         emit "propertyChanged" [JStr "d1"; JStr "1"; JNull];
         emit "propertyChanged" [JStr "d1"; JStr "2"; JBool false];
         emit "propertyChanged" [JStr "d1"; JStr "on"; JBool true] ]
  /\ fst (on_message JSON.parse (text_frame frame_mixed_keys)) <>
       [ emit "message"
           [JStr "d1"; JObj [("on", JBool true); ("2", JBool false); ("1", JNull)]];
         emit "propertyChanged" [JStr "d1"; JStr "on"; JBool true];
         emit "propertyChanged" [JStr "d1"; JStr "2"; JBool false];
         emit "propertyChanged" [JStr "d1"; JStr "1"; JNull] ].
Proof.
  split; [vm_compute; reflexivity|]. split; [vm_compute; reflexivity|].
  vm_compute. discriminate.
Qed.

(** The frame of the specification, whose keys [a], [b] are no array
    indices. *)
Lemma propertyStatus_frame_d1 :
  on_message JSON.parse (text_frame frame_propertyStatus) =
    ([ emit "message" [JStr "d1"; JObj [("a", JNum 1%float); ("b", JNum 2%float)]];
       emit "propertyChanged" [JStr "d1"; JStr "a"; JNum 1%float];
       emit "propertyChanged" [JStr "d1"; JStr "b"; JNum 2%float] ],
     Normal tt).
Proof.
  vm_compute. reflexivity.
Qed.

(** ** C10 *)

(** The frame of the specification: [message] carries the [id] and the
    [data] of the payload, and the events that follow are others. *)
Lemma propertyStatus_frame_raises_message_first :
  exists rest outcome,
    on_message JSON.parse (text_frame frame_propertyStatus) =
      (emit "message" [JStr "d1"; JObj [("a", JNum 1%float); ("b", JNum 2%float)]] :: rest,
       outcome)
    /\ forallb (fun e => negb (is_message e)) rest = true.
Proof.
  refine (message_event_comes_first JSON.parse reference_parse_rejects_empty
            frame_propertyStatus
            [ ("id", JStr "d1");
              ("data", JObj [("a", JNum 1%float); ("b", JNum 2%float)]);
              ("messageType", JStr "propertyStatus") ]
            (JStr "d1") (JObj [("a", JNum 1%float); ("b", JNum 2%float)]) _ _ _).
  - vm_compute. reflexivity.
  - left. exists [], [ ("data", JObj [("a", JNum 1%float); ("b", JNum 2%float)]);
                      ("messageType", JStr "propertyStatus") ].
    split; [reflexivity|]. intros [].
  - left. exists [("id", JStr "d1")], [("messageType", JStr "propertyStatus")].
    split; [reflexivity|]. cbn [map fst In]. intros [H|[]]. discriminate H.
Defined.

(** A frame with neither [id] nor [data]: both arguments are
    [undefined]. *)
Lemma hello_frame_raises_message_first :
  on_message JSON.parse (text_frame frame_hello) =
    ([emit "message" [JUndefined; JUndefined]], Normal tt).
Proof.
  vm_compute. reflexivity.
Qed.

(** ** C9 *)

Lemma pair_frame_raises_pair :
  on_message JSON.parse (text_frame frame_pair) =
    ([ emit "message" [JUndefined; JObj [("pair", JStr "xyz")]];
       emit "pair" [JStr "xyz"] ],
     Normal tt).
Proof.
  refine (proj1 (connection_scoped_frames JSON.parse reference_parse_rejects_empty
                   frame_pair
                   [ ("data", JObj [("pair", JStr "xyz")]);
                     ("messageType", JStr "actionStatus") ]
                   (JObj [("pair", JStr "xyz")]) _ _ _) _ _);
    vm_compute; reflexivity.
Defined.

(** An [actionStatus] frame without [id] whose data is not the single key
    [pair] belongs to the class of frames with [data] and no [id]; it
    raises no specific event, and no warning is logged for it. *)
Lemma action_without_pair_is_not_logged :
  JSON.parse frame_action_without_pair =
    Normal (JObj [ ("data", JObj [("x", JNum 1%float)]);
                   ("messageType", JStr "actionStatus") ])
  /\ on_message JSON.parse (text_frame frame_action_without_pair) =
       ([emit "message" [JUndefined; JObj [("x", JNum 1%float)]]], Normal tt)
  /\ ~ (exists args,
          In (console_warn args)
             (fst (on_message JSON.parse (text_frame frame_action_without_pair)))).
Proof.
  assert (Hrun : on_message JSON.parse (text_frame frame_action_without_pair) =
            ([emit "message" [JUndefined; JObj [("x", JNum 1%float)]]], Normal tt))
    by (vm_compute; reflexivity).
  split; [vm_compute; reflexivity|]. split; [exact Hrun|].
  rewrite Hrun. intros [args [H|[]]]. discriminate H.
Qed.

(** ** C4 *)

Lemma binary_frame_is_ignored :
  on_message JSON.parse {| type := "binary"; utf8Data := None |} = ([], Normal tt).
Proof.
  refine (proj1 (frames_that_do_not_parse JSON.parse)
            {| type := "binary"; utf8Data := None |} _).
  cbn [type]. discriminate.
Defined.

(** A text frame that is not valid JSON: the [SyntaxError] leaves the
    listener. *)
Lemma truncated_frame_throws :
  exists e,
    JSON.parse frame_truncated = Throw e
    /\ on_message JSON.parse (text_frame frame_truncated) = ([], Throw e)
    /\ on_message JSON.parse (text_frame frame_truncated) <> ([], Normal tt).
Proof.
  eexists. split; [vm_compute; reflexivity|]. split; [vm_compute; reflexivity|].
  vm_compute. discriminate.
Qed.

(** ** C2 *)

Lemma not_found_rejects :
  request JSON.stringify plain_client "GET" "/things/lamp" JUndefined
    {| nobody := true; strbody := false; expectnocontent := false |}
    (Fulfilled not_found) =
    ([ fetch "http://localhost:8080/things/lamp"
         {| agent := None; method := Some "GET";
            headers := Some [ ("Accept", "application/json");
                              ("Authorization", "Bearer jwt") ];
            body := None; redirect := None |} ],
     Rejected (Thrown (JStr "404: Not Found"))).
Proof.
  refine (proj1 (status_outside_2xx_rejects JSON.stringify plain_client "GET"
                   "/things/lamp" JUndefined
                   {| nobody := true; strbody := false; expectnocontent := false |}
                   not_found _)).
  right. cbn [status not_found]. lia.
Defined.

(** ** C3 *)

(** C3 at [delete('/things/lamp')] answered with 404: the request is
    rejected with ['404: Not Found'], as it is under [get], but the promise
    [delete] returns is fulfilled with [undefined]; the rejection stays
    with a promise nobody holds. *)
Theorem delete_swallows_the_failure :
  deleted_returned (delete JSON.stringify plain_client "/things/lamp" (Fulfilled not_found))
    = Fulfilled JUndefined
  /\ deleted_floating (delete JSON.stringify plain_client "/things/lamp" (Fulfilled not_found))
       = Rejected (Thrown (JStr "404: Not Found"))
  /\ snd (get JSON.stringify plain_client "/things/lamp" (Fulfilled not_found))
       = Rejected (Thrown (JStr "404: Not Found")).
Proof. repeat split; vm_compute; reflexivity. Qed.

(** ** C8 *)

Lemma put_sends_json :
  let value := JObj [("on", JBool true)] in
  let init := request_init JSON.stringify plain_client "PUT" value no_args in
  exists hs,
    headers init = Some hs
    /\ lookup "Content-Type" hs = Some "application/json"
    /\ body init = JSON.stringify value.
Proof.
  destruct (request_headers JSON.stringify plain_client "PUT" "/things/lamp/properties/on"
              (JObj [("on", JBool true)]) no_args (Fulfilled not_found))
    as [hs [rest [_ [Hhs [_ [_ [Hbody _]]]]]]].
  exists hs. split; [exact Hhs|]. exact (Hbody eq_refl).
Defined.

(** [delete] sends its body raw (the literal empty string, which is not a
    JSON text) under the JSON content type. *)
Lemma delete_labels_its_raw_body_as_json :
  let args := {| nobody := false; strbody := true; expectnocontent := true |} in
  let init := request_init JSON.stringify plain_client "DELETE" (JStr "") args in
  deleted_effects (delete JSON.stringify plain_client "/things/lamp" (Fulfilled not_found))
    = [fetch "http://localhost:8080/things/lamp" init]
  /\ body init = Some ""
  /\ option_map (lookup "Content-Type") (headers init) = Some (Some "application/json")
  /\ ~ content_type_consistent (strbody args) (Some "application/json").
Proof.
  repeat split; try (vm_compute; reflexivity).
  vm_compute. discriminate.
Qed.

(** ** C7 *)

(** A redirect that comes in with an empty [Location]: [fetch] reports
    the address the location resolves to, and the client moves to the
    encrypted port. *)
Lemma redirect_selects_https :
  header (found "") "Location" = Some ""
  /\ header (manual_redirect resolve_at_the_probe (found "")) "Location"
       = Some "http://localhost:8080/"
  /\ snd (local "jwt" (Fulfilled (manual_redirect resolve_at_the_probe (found "")))) =
       Fulfilled (new_WebThingsClient "localhost" 4443 "jwt" true true).
Proof.
  split; [reflexivity|].
  refine (proj1 (proj2 (proj2 (local_follows_the_location_header resolve_at_the_probe _
                                 "jwt" not_found (found ""))))
            "" _ _).
  - intros location. unfold resolve_at_the_probe.
    destruct (prefix "http" location) eqn:Hhttp.
    + destruct location; [discriminate Hhttp|discriminate].
    + destruct (prefix "/" location); discriminate.
  - reflexivity.
  - reflexivity.
Defined.

(** A response that is no redirect and carries a [Location] header with
    an empty value reaches [local] as it came in: the client stays on the
    plaintext port. *)
Lemma empty_location_keeps_http :
  header ok_with_empty_location "Location" = Some ""
  /\ manual_redirect resolve_at_the_probe ok_with_empty_location = ok_with_empty_location
  /\ snd (local "jwt" (Fulfilled (manual_redirect resolve_at_the_probe
                                    ok_with_empty_location))) =
       Fulfilled (new_WebThingsClient "localhost" 8080 "jwt" false false)
  /\ snd (local "jwt" (Fulfilled (manual_redirect resolve_at_the_probe
                                    ok_with_empty_location))) <>
       Fulfilled (new_WebThingsClient "localhost" 4443 "jwt" true true).
Proof.
  split; [reflexivity|]. split; [reflexivity|]. split; [reflexivity|].
  vm_compute. discriminate.
Qed.

(** ** C5 *)

(** The client the resolver builds after a redirect has port 4443, and
    [connect()] opens its socket on port 8080. *)
Lemma resolved_client_connects_to_8080 :
  exists this,
    snd (local "jwt" (Fulfilled (found "https://localhost:4443/"))) = Fulfilled this
    /\ port this = 4443%Z
    /\ fst (fst (connect this None (connectFailed (Error "ECONNREFUSED")))) =
         [ websocket_connect {| tlsOptions := Some {| tls_rejectUnauthorized := false |} |}
             "wss://localhost:8080/things?jwt=jwt" ]
    /\ fst (fst (connect this None (connectFailed (Error "ECONNREFUSED")))) <>
         [ websocket_connect {| tlsOptions := Some {| tls_rejectUnauthorized := false |} |}
             "wss://localhost:4443/things?jwt=jwt" ].
Proof.
  eexists. split; [vm_compute; reflexivity|]. split; [reflexivity|].
  split; [vm_compute; reflexivity|]. vm_compute. discriminate.
Qed.

(** ** C6 *)



(** ** X1, X2 *)

Lemma things_are_parsed :
  request JSON.stringify plain_client "GET" "/things" JUndefined
    {| nobody := true; strbody := false; expectnocontent := false |}
    (Fulfilled (ok_json (JArr []))) =
    ([ fetch "http://localhost:8080/things"
         {| agent := None; method := Some "GET";
            headers := Some [ ("Accept", "application/json");
                              ("Authorization", "Bearer jwt") ];
            body := None; redirect := None |};
       response_json ],
     Fulfilled (JArr [])).
Proof.
  refine (success_with_json_is_parsed JSON.stringify plain_client "GET" "/things"
            JUndefined {| nobody := true; strbody := false; expectnocontent := false |}
            (ok_json (JArr [])) _ _).
  - cbn [status ok_json]. lia.
  - vm_compute. reflexivity.
Defined.

Lemma deleted_without_content_gives_null :
  snd (request JSON.stringify plain_client "DELETE" "/things/lamp" (JStr "")
         {| nobody := false; strbody := true; expectnocontent := true |}
         (Fulfilled no_content)) = Fulfilled JNull.
Proof.
  refine (f_equal snd
            (success_without_json JSON.stringify plain_client "DELETE" "/things/lamp"
               (JStr "") {| nobody := false; strbody := true; expectnocontent := true |}
               no_content _ _)).
  - cbn [status no_content]. lia.
  - vm_compute. reflexivity.
Defined.

(** ** X4 to X8, X10, X11 *)

Lemma event_frame_raises_events_in_key_order :
  on_message JSON.parse (text_frame frame_event) =
    ([ emit "message"
         [JStr "d1"; JObj [("2", JBool true); ("on", JBool false); ("1", JNull)]];
       emit "eventRaised" [JStr "d1"; JStr "1"; JNull];
       emit "eventRaised" [JStr "d1"; JStr "2"; JBool true];
       emit "eventRaised" [JStr "d1"; JStr "on"; JBool false] ],
     Normal tt).
Proof.
  refine (batch_types_raise_one_event_per_key JSON.parse reference_parse_rejects_empty
            frame_event
            [ ("id", JStr "d1");
              ("data", JObj [("2", JBool true); ("on", JBool false); ("1", JNull)]);
              ("messageType", JStr "event") ]
            (JStr "d1") (JObj [("2", JBool true); ("on", JBool false); ("1", JNull)])
            "event" "eventRaised" _ _ _ _ _);
    try (vm_compute; reflexivity).
  right. right. left. reflexivity.
Defined.

(** Data that is a string is enumerated by code unit: one event for [é],
    two for a character beyond the basic plane, one per surrogate. *)
Lemma text_data_is_enumerated_by_code_unit :
  on_message JSON.parse (text_frame frame_text_data) =
    ([ emit "message" [JStr "d1"; JStr "é😀"];
       emit "propertyChanged" [JStr "d1"; JStr "0"; JStr "é"];
       emit "propertyChanged" [JStr "d1"; JStr "1"; JStr (three_bytes 55357)];
       emit "propertyChanged" [JStr "d1"; JStr "2"; JStr (three_bytes 56832)] ],
     Normal tt).
Proof.
  vm_compute. reflexivity.
Qed.

Lemma connected_frame_raises_one_event :
  on_message JSON.parse (text_frame frame_connected) =
    ([ emit "message" [JStr "d1"; JBool true];
       emit "connectStateChanged" [JStr "d1"; JBool true] ],
     Normal tt).
Proof.
  refine (whole_types_raise_one_event JSON.parse reference_parse_rejects_empty
            frame_connected
            [("id", JStr "d1"); ("data", JBool true); ("messageType", JStr "connected")]
            (JStr "d1") (JBool true) "connected" "connectStateChanged" _ _ _ _ _);
    try (vm_compute; reflexivity).
  left. reflexivity.
Defined.

Lemma ping_frame_is_logged :
  on_message JSON.parse (text_frame frame_ping) =
    ([ emit "message" [JNum 0%float; JObj []];
       console_warn [ JStr "Unknown message from socket"; JStr ""; JStr ":"; JStr "ping";
                      JStr "("; JObj []; JStr ")" ] ],
     Normal tt).
Proof.
  refine (unknown_type_is_logged JSON.parse reference_parse_rejects_empty frame_ping
            [("id", JNum 0%float); ("data", JObj []); ("messageType", JStr "ping")]
            (JNum 0%float) (JObj []) _ _ _ _);
    vm_compute; reflexivity.
Defined.

Lemma frame_without_data_example :
  on_message JSON.parse (text_frame frame_without_data) =
    ([emit "message" [JStr "d1"; JUndefined]], Normal tt).
Proof.
  refine (frame_without_data_raises_message_only JSON.parse reference_parse_rejects_empty
            frame_without_data
            [("id", JStr "d1"); ("messageType", JStr "propertyStatus")] _ _);
    vm_compute; reflexivity.
Defined.

Lemma null_payload_throws :
  exists e, on_message JSON.parse (text_frame "null") = ([], Throw e).
Proof.
  refine (proj1 (payloads_that_are_not_objects JSON.parse reference_parse_rejects_empty
                   "null") _).
  vm_compute. reflexivity.
Defined.

Lemma event_frame_covers_its_properties :
  exists events,
    on_message JSON.parse (text_frame frame_event) =
      (emit "message"
         [JStr "d1"; JObj [("2", JBool true); ("on", JBool false); ("1", JNull)]]
       :: events,
       Normal tt)
    /\ Permutation events
         [ emit "eventRaised" [JStr "d1"; JStr "2"; JBool true];
           emit "eventRaised" [JStr "d1"; JStr "on"; JBool false];
           emit "eventRaised" [JStr "d1"; JStr "1"; JNull] ]
    /\ List.length events = 3%nat.
Proof.
  refine (batch_events_cover_the_properties JSON.parse reference_parse_rejects_empty
            frame_event
            [ ("id", JStr "d1");
              ("data", JObj [("2", JBool true); ("on", JBool false); ("1", JNull)]);
              ("messageType", JStr "event") ]
            [("2", JBool true); ("on", JBool false); ("1", JNull)]
            (JStr "d1") "event" "eventRaised" _ _ _ _ _ _);
    try (vm_compute; reflexivity).
  - right. right. left. reflexivity.
  - repeat constructor; cbn [In map fst];
      repeat (let H := fresh in intros [H|H]; [discriminate H|revert H]); intros [].
Defined.

Lemma action_list_frame_raises_one_event_per_element :
  on_message JSON.parse (text_frame frame_action_list) =
    ([ emit "message" [JStr "d1"; JArr [JStr "a"; JStr "b"]];
       emit "actionTriggered" [JStr "d1"; JStr "0"; JStr "a"];
       emit "actionTriggered" [JStr "d1"; JStr "1"; JStr "b"] ],
     Normal tt).
Proof.
  refine (batch_of_a_list_raises_one_event_per_element JSON.parse
            reference_parse_rejects_empty frame_action_list
            [ ("id", JStr "d1"); ("data", JArr [JStr "a"; JStr "b"]);
              ("messageType", JStr "actionStatus") ]
            (JStr "d1") [JStr "a"; JStr "b"] "actionStatus" "actionTriggered"
            _ _ _ _ _ _);
    try (vm_compute; reflexivity).
  - right. left. reflexivity.
  - vm_compute. discriminate.
Defined.

(** ** X12 *)

(** A client built to skip the validation of certificates has its TLS
    options until it first tries to connect; after a failed attempt the
    next [connect] hands the library a configuration without them. *)
Lemma second_connect_has_no_tls_options :
  let this := new_WebThingsClient "localhost" 4443 "jwt" true true in
  let ops := [op_connect None (connectFailed (Error "connect ECONNREFUSED"))] in
  tlsOptions (webSocketClientConfig this) = Some {| tls_rejectUnauthorized := false |}
  /\ webSocketClientConfig (run this ops) = {| tlsOptions := None |}
  /\ forall n outcome,
       exists url,
         fst (fst (connect (run this ops) n outcome))
           = [websocket_connect {| tlsOptions := None |} url].
Proof.
  intros this ops. split; [reflexivity|].
  destruct (channel_never_changes_the_descriptor JSON.stringify this ops)
    as (_ & _ & _ & _ & _ & _ & _ & _ & Hattempted).
  exact (Hattempted eq_refl).
Defined.

(** ** X13 *)

Lemma disconnect_twice_closes_twice :
  let k := {| socket := 7; connected := true |} in
  let this := run plain_client [op_connect None (connect_event k); op_disconnect; op_closed] in
  exists k',
    connection this = Some k'
    /\ Some (socket k') = Some 7%nat
    /\ disconnect this = ([connection_close k'], Fulfilled tt).
Proof.
  refine (proj2 (disconnect_over_time "localhost" 8080 "jwt" false false
                   [ op_connect None (connect_event {| socket := 7; connected := true |});
                     op_disconnect; op_closed ]) _).
  reflexivity.
Defined.

(** ** X15, X16, X17 *)

Lemma two_devices_are_listed :
  let lamp := JObj [("title", JStr "Lamp")] in
  let plug := JObj [("title", JStr "Plug")] in
  snd (getDevices JSON.stringify (JsValue * WebThingsClient) pair plain_client
         (Fulfilled (ok_json (JArr [lamp; plug])))) =
    Fulfilled [(lamp, plain_client); (plug, plain_client)].
Proof.
  intros lamp plug.
  refine (f_equal snd
            (proj1 (devices_are_built_from_the_answer JSON.stringify
                      (JsValue * WebThingsClient) pair plain_client
                      (ok_json (JArr [lamp; plug])) (JArr [lamp; plug]) _)
               [lamp; plug] eq_refl)).
  split; [cbn [status ok_json]; lia|]. split; [vm_compute; reflexivity|reflexivity].
Defined.

Lemma absent_member_reads_undefined :
  let pick := fun (ls : list (string * string)) (rel : string) =>
                match find (fun l => fst l =? rel) ls with
                | Some l => snd l
                | None => ""
                end in
  let brightness :=
    {| name := "brightness";
       description :=
         {| title := "Brightness"; type_ := "integer"; at_type := ["BrightnessProperty"];
            unit_ := "percent"; description_text := ""; minimum := 0%float;
            maximum := 100%float; readOnly := false; multipleOf := 1%float;
            links := [("property", "/things/lamp/properties/brightness")] |};
       device := plain_client |} in
  snd (getValue JSON.stringify WebThingsClient standard_prototypes (string * string) pick
         (fun d => d) brightness (Fulfilled (ok_json (JObj [("on", JBool true)])))) =
    Fulfilled (plain JUndefined).
Proof.
  intros pick brightness.
  refine (proj1 (proj2 (proj1 (getValue_reads_the_named_member JSON.stringify
                                 WebThingsClient standard_prototypes
                                 (string * string) pick (fun d => d) brightness
                                 (ok_json (JObj [("on", JBool true)]))
                                 (JObj [("on", JBool true)]) _)
                          [("on", JBool true)] eq_refl)) _ _).
  - split; [cbn [status ok_json]; lia|]. split; [vm_compute; reflexivity|reflexivity].
  - cbn. intros [H|[]]. discriminate H.
  - cbn. intros H.
    repeat (destruct H as [H|H]; [discriminate H|]). exact H.
Defined.

(** The same answer read under the name [constructor], which every
    object inherits: the call returns the built-in member, not
    [undefined]. *)
Lemma inherited_member_is_read :
  let pick := fun (ls : list (string * string)) (rel : string) =>
                match find (fun l => fst l =? rel) ls with
                | Some l => snd l
                | None => ""
                end in
  let constructor :=
    {| name := "constructor";
       description :=
         {| title := "Constructor"; type_ := "string"; at_type := [];
            unit_ := ""; description_text := ""; minimum := 0%float;
            maximum := 0%float; readOnly := true; multipleOf := 1%float;
            links := [("property", "/things/lamp/properties/constructor")] |};
       device := plain_client |} in
  snd (getValue JSON.stringify WebThingsClient standard_prototypes (string * string) pick
         (fun d => d) constructor (Fulfilled (ok_json (JObj [("on", JBool true)])))) =
    Fulfilled (builtin "constructor").
Proof.
  vm_compute. reflexivity.
Qed.

